(** * EchoVault: metadata extraction, known-paths refresh and the read gate

    A shallow embedding of the Rust code carried by the patch scripts of the
    repository:

    - [apply_optimization.py]: the VS Code Copilot extractor
      ([QuickMetadata], [FirstRequestOnly] and both versions of
      [extract_quick_metadata]);
    - [update_commands.py]: the known-paths refresh at the end of
      [scan_sessions];
    - [update_commands_read.py]: the guarded [read_file_content];
    - [add_test.py]: the test of [get_all_session_mtimes].

    Rust strings are sequences of Unicode scalar values, paths are sequences
    of components, JSON texts are syntax trees whose objects keep their
    members in file order (duplicates included), and the file system is an
    explicit record of the operations the code calls. *)

From stdpp Require Import base option list gmap strings.
From Stdlib Require Import ZArith.

Local Open Scope Z_scope.

#[local] Set Warnings "-clear-no-such-hyp".

(** ** Rust strings *)

Module Str.

(** A Rust [char] is a Unicode scalar value; a [String] is a sequence of
    them, stored as UTF-8. *)
Definition char := N.
Definition t := list char.

(** [char::len_utf8] *)
Definition len_utf8 (c : char) : Z :=
  if (c <? 128)%N then 1
  else if (c <? 2048)%N then 2
  else if (c <? 65536)%N then 3
  else 4.

(** [str::len]: the length in bytes of the UTF-8 encoding. *)
Fixpoint len (s : t) : Z :=
  match s with
  | [] => 0
  | c :: s' => len_utf8 c + len s'
  end.

(** [s.chars().count()] *)
Definition chars_count (s : t) : Z := Z.of_nat (length s).

(** [s.chars().take(n).collect::<String>()] *)
Definition chars_take (n : nat) (s : t) : t := take n s.

(** [str::is_empty] *)
Definition is_empty (s : t) : bool :=
  match s with [] => true | _ => false end.

(** An ASCII literal of the source. *)
Definition lit (s : string) : t :=
  List.map Ascii.N_of_ascii (String.list_ascii_of_string s).

Definition eqb (a b : t) : bool := bool_decide (a = b).

End Str.

(** ** Paths *)

Module Path.

(** [std::path::Component], without the Windows prefix. *)
Inductive Component :=
| RootDir
| CurDir
| ParentDir
| Normal (name : Str.t).

#[global] Instance Component_eq_dec : EqDecision Component.
Proof. solve_decision. Defined.

(** A [PathBuf], seen through [Path::components]. *)
Definition t := list Component.

(** [Path::starts_with]: [base] is a prefix of the path, component by
    component. *)
Fixpoint starts_with (p base : t) {struct base} : bool :=
  match base, p with
  | [], _ => true
  | b :: base', c :: p' => bool_decide (c = b) && starts_with p' base'
  | _ :: _, [] => false
  end.

(** [Path::file_name]: the last component when it is a normal one. *)
Definition file_name (p : t) : option Str.t :=
  match last p with
  | Some (Normal name) => Some name
  | _ => None
  end.

Definition dot : Str.char := 46%N.

(** [rsplitn(2, '.')] on a file name: [after] is what follows the last
    dot (the whole name when there is none), [before] what precedes it. *)
Fixpoint rsplit_dot (s : Str.t) : option Str.t * Str.t :=
  match s with
  | [] => (None, [])
  | c :: s' =>
      match rsplit_dot s' with
      | (Some before, after) => (Some (c :: before), after)
      | (None, after) =>
          if (c =? dot)%N then (Some [], after) else (None, c :: after)
      end
  end.

(** [rsplit_file_at_dot] of the standard library. *)
Definition rsplit_file_at_dot (file : Str.t) : option Str.t * option Str.t :=
  if Str.eqb file (Str.lit "..") then (Some file, None)
  else
    match rsplit_dot file with
    | (Some [], _) => (Some file, None)
    | (before, after) => (before, Some after)
    end.

(** [Path::file_stem] *)
Definition file_stem (p : t) : option Str.t :=
  match file_name p with
  | Some f =>
      match rsplit_file_at_dot f with
      | (Some before, _) => Some before
      | (None, after) => after
      end
  | None => None
  end.

(** [Path::extension] *)
Definition extension (p : t) : option Str.t :=
  match file_name p with
  | Some f =>
      match rsplit_file_at_dot f with
      | (Some _, after) => after
      | (None, _) => None
      end
  | None => None
  end.

Definition slash : Str.char := 47%N.

Definition component_str (c : Component) : Str.t :=
  match c with
  | RootDir => []
  | CurDir => Str.lit "."
  | ParentDir => Str.lit ".."
  | Normal name => name
  end.

Fixpoint join (cs : list Component) : Str.t :=
  match cs with
  | [] => []
  | [c] => component_str c
  | c :: cs' => component_str c ++ slash :: join cs'
  end.

(** [path.to_string_lossy().to_string()] on a Unix path. *)
Definition to_string_lossy (p : t) : Str.t :=
  match p with
  | [RootDir] => [slash]
  | _ => join p
  end.

End Path.

(** ** JSON documents *)

Module Json.

(** [serde_json::Number]: an integer literal that fits [u64] or [i64], or
    a float ([bits] stands for the [f64]). *)
Inductive Number :=
| PosInt (n : Z)     (* 0 <= n < 2^64 *)
| NegInt (n : Z)     (* -2^63 <= n < 0 *)
| Float (bits : Z).

(** A JSON text as the parser meets it: the members of an object are kept
    in file order, a key may occur more than once. *)
#[warnings="-register-all"]
Inductive Value :=
| Null
| Bool (b : bool)
| Num (n : Number)
| String (s : Str.t)
| Array (items : list Value)
| Object (members : list (Str.t * Value)).

Definition i64_MAX : Z := 9223372036854775807.

(** [Map::get] after the members were inserted one by one: a later
    occurrence of a key overwrites an earlier one. *)
Fixpoint map_get (key : Str.t) (members : list (Str.t * Value))
  : option Value :=
  match members with
  | [] => None
  | (k, v) :: rest =>
      match map_get key rest with
      | Some v' => Some v'
      | None => if Str.eqb k key then Some v else None
      end
  end.

(** [Value::get] with a string index. *)
Definition get (key : string) (v : Value) : option Value :=
  match v with
  | Object members => map_get (Str.lit key) members
  | _ => None
  end.

(** [Value::as_str] *)
Definition as_str (v : Value) : option Str.t :=
  match v with String s => Some s | _ => None end.

(** [Value::as_i64] *)
Definition as_i64 (v : Value) : option Z :=
  match v with
  | Num (PosInt n) => if n <=? i64_MAX then Some n else None
  | Num (NegInt n) => Some n
  | _ => None
  end.

(** [Value::as_array] *)
Definition as_array (v : Value) : option (list Value) :=
  match v with Array items => Some items | _ => None end.

End Json.

(** ** Field-selective deserialization

  What [serde_json] does with the derived and the hand-written
  [Deserialize] implementations of the patch, on a JSON text that is
  syntactically well formed.  [None] is a deserialization error. *)

Module De.

Import Json.

(** [Option<T>]: [null] is [None], anything else goes to [T]. *)
Definition option_ {A} (de : Value -> option A) (v : Value)
  : option (option A) :=
  match v with
  | Null => Some None
  | _ => x ← de v; Some (Some x)
  end.

(** [String] *)
Definition string_ (v : Value) : option Str.t :=
  match v with String s => Some s | _ => None end.

(** [i64]: an unsigned literal above [i64::MAX] and a float are errors. *)
Definition i64 (v : Value) : option Z :=
  match v with
  | Num (PosInt n) => if n <=? i64_MAX then Some n else None
  | Num (NegInt n) => Some n
  | _ => None
  end.

(** The values an object gives to a key, in file order. *)
Definition occurrences (key : string) (members : list (Str.t * Value))
  : list Value :=
  (filter (fun kv => kv.1 = Str.lit key) members).*2.

(** A field of type [Option<T>] in a derived [visit_map]: absent it is
    [None], present once it is read as [Option<T>], present twice it is the
    error [duplicate_field].  The members under other keys are skipped. *)
Definition field {A} (de : Value -> option A) (key : string)
    (members : list (Str.t * Value)) : option (option A) :=
  match occurrences key members with
  | [] => Some None
  | [v] => option_ de v
  | _ => None
  end.

(** [struct MessageStub { text: Option<String> }].  A derived struct is
    read from an object, or from an array that holds its fields in
    declaration order. *)
Record MessageStub := { ms_text : option Str.t }.

Definition MessageStub_de (v : Value) : option MessageStub :=
  match v with
  | Object members =>
      text ← field string_ "text" members; Some {| ms_text := text |}
  | Array [t] => text ← option_ string_ t; Some {| ms_text := text |}
  | _ => None
  end.

(** [struct RequestStub { message: Option<MessageStub> }] *)
Record RequestStub := { rs_message : option MessageStub }.

Definition RequestStub_de (v : Value) : option RequestStub :=
  match v with
  | Object members =>
      message ← field MessageStub_de "message" members;
      Some {| rs_message := message |}
  | Array [m] =>
      message ← option_ MessageStub_de m; Some {| rs_message := message |}
  | _ => None
  end.

(** [struct FirstRequestOnly { text: Option<String> }] *)
Record FirstRequestOnly := { text : option Str.t }.

(** [FirstRequestVisitor::visit_seq]: the first element is read as a
    [RequestStub], the others are skipped as [IgnoredAny]. *)
Definition visit_seq (items : list Value) : option FirstRequestOnly :=
  match items with
  | [] => Some {| text := None |}
  | x :: _ =>
      first ← RequestStub_de x;
      Some {| text := rs_message first ≫= ms_text |}
  end.

(** [impl Deserialize for FirstRequestOnly]: [deserialize_seq]. *)
Definition FirstRequestOnly_de (v : Value) : option FirstRequestOnly :=
  match v with
  | Array items => visit_seq items
  | _ => None
  end.

(** [struct QuickMetadata] *)
Record QuickMetadata := {
  session_id : option Str.t;
  creation_date : option Z;
  custom_title : option Str.t;
  requests : option FirstRequestOnly;
}.

(** The positional form: three or four elements, since [requests] has
    [#[serde(default)]]. *)
Definition QuickMetadata_seq (items : list Value) : option QuickMetadata :=
  match items with
  | s :: d :: t :: more =>
      sid ← option_ string_ s;
      date ← option_ i64 d;
      title ← option_ string_ t;
      reqs ← match more with
             | [] => Some None
             | [r] => option_ FirstRequestOnly_de r
             | _ => None
             end;
      Some {| session_id := sid; creation_date := date;
              custom_title := title; requests := reqs |}
  | _ => None
  end.

Definition QuickMetadata_de (v : Value) : option QuickMetadata :=
  match v with
  | Object members =>
      sid ← field string_ "sessionId" members;
      date ← field i64 "creationDate" members;
      title ← field string_ "customTitle" members;
      reqs ← field FirstRequestOnly_de "requests" members;
      Some {| session_id := sid; creation_date := date;
              custom_title := title; requests := reqs |}
  | Array items => QuickMetadata_seq items
  | _ => None
  end.

End De.

(** ** The file system, as the code observes it *)

(** One item of [BufReader::lines]: an I/O or encoding error, or the text
    of a line, given by what [serde_json::from_str::<Value>] makes of it
    ([None]: not a JSON text). *)
Inductive Line :=
| LineErr
| LineOk (parsed : option Json.Value).

(** An open file, by what its readers make of it.

    [lines] are the items of [BufReader::lines].

    [document] is what the full parser makes of the whole content, as
    [fs::read_to_string] followed by [serde_json::from_str::<Value>] does:
    [None] when the content is not valid UTF-8 or not a JSON text that is
    valid throughout.

    [skimmed] matters when [document] is [None]: it is what
    [serde_json::from_reader] goes through when it reads into a type that
    declares its fields.  A value that the type does not ask for is skipped
    as [IgnoredAny], and a skipped value is not validated (an escape that is
    not a character, a number out of range, a nesting deeper than the
    parser's limit, bytes that are not UTF-8 inside a string), so this reader
    gets through texts the full parser rejects.  In the tree such a value
    stands as any value, since it is never looked at.  [None]: this reader
    stops on a syntax error too. *)
Record File := {
  lines : list Line;
  document : option Json.Value;
  skimmed : option Json.Value;
}.

(** The tree [serde_json::from_reader] goes through: the one of the full
    parser when the content is valid throughout. *)
Definition reader_document (file : File) : option Json.Value :=
  match document file with
  | Some doc => Some doc
  | None => skimmed file
  end.

Record FileSystem := {
  (** [File::open] *)
  open : Path.t -> option File;
  (** [fs::metadata(p).map(|m| m.len())] *)
  metadata_len : Path.t -> option Z;
  (** [Path::exists] *)
  path_exists : Path.t -> bool;
  (** [fs::canonicalize] *)
  canonicalize : Path.t -> option Path.t;
  (** [fs::read_to_string] *)
  read_to_string : Path.t -> option Str.t;
}.

(** ** The extractor of [apply_optimization.py] *)

Record SessionMetadata := {
  id : Str.t;
  source : Str.t;
  title : option Str.t;
  created_at : option Z;
  vault_path : Path.t;
  original_path : Path.t;
  file_size : Z;
  workspace_name : option Str.t;
  ide_origin : option Str.t;
}.

(** The closure both fallbacks apply to the text they found:
    [s.chars().take(60)], followed by three dots when
    [s.chars().count() > 60]. *)
Definition truncate_title (s : Str.t) : Str.t :=
  let truncated := Str.chars_take 60 s in
  if 60 <? Str.chars_count s then truncated ++ Str.lit "..." else truncated.

(** The body of the loop over the lines that follow the header: the title
    this line yields, if any. *)
Definition user_message_title (line : Line) : option Str.t :=
  match line with
  | LineErr => None                                   (* [flatten] *)
  | LineOk None => None
  | LineOk (Some obj) =>
      if bool_decide (Json.get "kind" obj ≫= Json.as_i64 = Some 1) then
        match Json.get "v" obj ≫= Json.as_str with
        | Some text =>
            if negb (Str.is_empty text) && (5 <? Str.len text)
            then Some (truncate_title text)
            else None
        | None => None
        end
      else None
  end.

(** [for line in ... { ... return ...; } None] *)
Fixpoint first_user_message (ls : list Line) : option Str.t :=
  match ls with
  | [] => None
  | line :: rest =>
      match user_message_title line with
      | Some t => Some t
      | None => first_user_message rest
      end
  end.

(** The last fallback: [reader.lines().skip(1).take(20)]. *)
Definition jsonl_fallback (fs : FileSystem) (path : Path.t) (is_jsonl : bool)
  : option Str.t :=
  if negb is_jsonl then None
  else
    file ← open fs path;
    first_user_message (take 20 (drop 1 (lines file))).

(** [path.extension().is_some_and(|ext| ext == "jsonl")] *)
Definition is_jsonl (path : Path.t) : bool :=
  match Path.extension path with
  | Some ext => Str.eqb ext (Str.lit "jsonl")
  | None => false
  end.

(** [path.file_stem().and_then(|s| s.to_str()).map(|s| s.to_string())
     .unwrap_or_default()] *)
Definition file_stem_or_default (path : Path.t) : Str.t :=
  default [] (Path.file_stem path).

(** [reader.lines().next()?.ok()?] then [serde_json::from_str(..).ok()?] *)
Definition header_line (file : File) : option Json.Value :=
  match lines file with
  | [] => None
  | LineErr :: _ => None
  | LineOk parsed :: _ => parsed
  end.

Section Extractor.

(** [chrono] decides which epoch-millisecond values are a date. *)
Variable representable : Z -> bool.

(** [Utc.timestamp_millis_opt(ts).single()] *)
Definition timestamp_millis_opt (ts : Z) : option Z :=
  if representable ts then Some ts else None.

(** The four values the rewritten method binds first. *)
Record Header := {
  h_session_id : option Str.t;
  h_creation_date : option Z;
  h_custom_title : option Str.t;
  h_first_message_text : option Str.t;
}.

Definition read_header (fs : FileSystem) (path : Path.t) : option Header :=
  if is_jsonl path then
    file ← open fs path;
    wrapper ← header_line file;
    v ← Json.get "v" wrapper;
    Some {| h_session_id := Json.get "sessionId" v ≫= Json.as_str;
            h_creation_date := Json.get "creationDate" v ≫= Json.as_i64;
            h_custom_title := Json.get "customTitle" v ≫= Json.as_str;
            h_first_message_text := None |}
  else
    file ← open fs path;
    doc ← reader_document file;
    metadata ← De.QuickMetadata_de doc;
    Some {| h_session_id := De.session_id metadata;
            h_creation_date := De.creation_date metadata;
            h_custom_title := De.custom_title metadata;
            h_first_message_text := De.requests metadata ≫= De.text |}.

(** [custom_title.or_else(..).or_else(..)] of the rewritten method. *)
Definition derive_title (fs : FileSystem) (path : Path.t) (h : Header)
  : option Str.t :=
  match h_custom_title h with
  | Some t => Some t
  | None =>
      match h_first_message_text h with
      | Some s => Some (truncate_title s)
      | None => jsonl_fallback fs path (is_jsonl path)
      end
  end.

(** [new_method] *)
Definition extract_quick_metadata (fs : FileSystem) (path : Path.t)
    (workspace : Str.t) : option SessionMetadata :=
  h ← read_header fs path;
  let session_id := default (file_stem_or_default path) (h_session_id h) in
  let title := derive_title fs path h in
  let created_at := h_creation_date h ≫= timestamp_millis_opt in
  let file_size := default 0 (metadata_len fs path) in
  Some {| id := session_id;
          source := Str.lit "vscode-copilot";
          title := title;
          created_at := created_at;
          vault_path := [];
          original_path := path;
          file_size := file_size;
          workspace_name := Some workspace;
          ide_origin := None |}.

(** [old_method]: the whole content is read into a string and parsed into
    a [Value] by the full parser. *)
Definition read_json_old (fs : FileSystem) (path : Path.t)
  : option Json.Value :=
  if is_jsonl path then
    file ← open fs path;
    wrapper ← header_line file;
    Json.get "v" wrapper
  else
    file ← open fs path;
    document file.

Definition first_request_text_old (json : Json.Value) : option Str.t :=
  requests ← Json.get "requests" json;
  arr ← Json.as_array requests;
  req ← head arr;
  msg ← Json.get "message" req;
  t ← Json.get "text" msg;
  Json.as_str t.

Definition derive_title_old (fs : FileSystem) (path : Path.t)
    (json : Json.Value) : option Str.t :=
  match Json.get "customTitle" json ≫= Json.as_str with
  | Some t => Some t
  | None =>
      match first_request_text_old json with
      | Some s => Some (truncate_title s)
      | None => jsonl_fallback fs path (is_jsonl path)
      end
  end.

Definition extract_quick_metadata_old (fs : FileSystem) (path : Path.t)
    (workspace : Str.t) : option SessionMetadata :=
  json ← read_json_old fs path;
  let session_id :=
    default (file_stem_or_default path)
            (Json.get "sessionId" json ≫= Json.as_str) in
  let title := derive_title_old fs path json in
  let created_at :=
    (Json.get "creationDate" json ≫= Json.as_i64) ≫= timestamp_millis_opt in
  let file_size := default 0 (metadata_len fs path) in
  Some {| id := session_id;
          source := Str.lit "vscode-copilot";
          title := title;
          created_at := created_at;
          vault_path := [];
          original_path := path;
          file_size := file_size;
          workspace_name := Some workspace;
          ide_origin := None |}.

End Extractor.

(** ** The commands of [update_commands.py] and [update_commands_read.py] *)

Module Commands.

(** [Result<T, E>] *)
Inductive Result (T E : Type) :=
| Ok (value : T)
| Err (error : E).
Arguments Ok {T E} value.
Arguments Err {T E} error.

(** A [std::sync::Mutex]: [lock] fails once a holder has panicked. *)
Record Mutex (A : Type) := {
  poisoned : bool;
  data : A;
}.
Arguments poisoned {A} _.
Arguments data {A} _.

Definition lock {A} (m : Mutex A) : option A :=
  if poisoned m then None else Some (data m).

(** [AppState]: the set behind [state.known_paths]. *)
Record AppState := {
  known_paths : Mutex (gset Str.t);
}.

(** What the gate reads of [Config]. *)
Record Config := {
  vault_path : Path.t;
  export_path : option Path.t;
}.

(** The error strings of [read_file_content], by the format that builds
    them. *)
Inductive ReadError :=
| FileNotFound (path : Path.t)          (* "File not found: {}" *)
| InvalidPath                           (* "Invalid path: {}" *)
| AccessDenied (path : Path.t)          (* "Access denied: {}" *)
| MetadataError                         (* [e.to_string()] *)
| FileTooLarge (len max : Z)            (* "File too large: {} bytes (max: {} bytes)" *)
| ReadFailed.                           (* "Failed to read file: {}" *)

(** [50 * 1024 * 1024] *)
Definition MAX_SIZE : Z := 50 * 1024 * 1024.

(** Steps 1 and 2 of the check: [allowed] after the [if let Ok(config)]
    block. *)
Definition allowed_by_config (fs : FileSystem) (load_default : option Config)
    (canonical_path : Path.t) : bool :=
  match load_default with
  | Some config =>
      let allowed :=
        match canonicalize fs (vault_path config) with
        | Some vault_canon => Path.starts_with canonical_path vault_canon
        | None => false
        end in
      if negb allowed then
        match export_path config with
        | Some export_path =>
            match canonicalize fs export_path with
            | Some export_canon => Path.starts_with canonical_path export_canon
            | None => false
            end
        | None => false
        end
      else allowed
  | None => false
  end.

(** [allowed] when it is tested: step 3 runs when the first two did not
    allow. *)
Definition allowed (fs : FileSystem) (load_default : option Config)
    (state : AppState) (canonical_path : Path.t) : bool :=
  let allowed := allowed_by_config fs load_default canonical_path in
  if negb allowed then
    match lock (known_paths state) with
    | Some known =>
        bool_decide (Path.to_string_lossy canonical_path ∈ known)
    | None => false
    end
  else allowed.

(** The patched [read_file_content]; [load_default] is what
    [Config::load_default()] returns. *)
Definition read_file_content (fs : FileSystem) (load_default : option Config)
    (state : AppState) (path : Path.t) : Result Str.t ReadError :=
  if negb (path_exists fs path) then Err (FileNotFound path)
  else
    match canonicalize fs path with
    | None => Err InvalidPath
    | Some canonical_path =>
        if negb (allowed fs load_default state canonical_path) then
          Err (AccessDenied path)
        else
          match metadata_len fs canonical_path with
          | None => Err MetadataError
          | Some len =>
              if MAX_SIZE <? len then Err (FileTooLarge len MAX_SIZE)
              else
                match read_to_string fs canonical_path with
                | Some content => Ok content
                | None => Err ReadFailed
                end
          end
    end.

(** A session summary of the scan: its [path] is all the refresh reads. *)
Record SessionInfo := {
  path : Path.t;
}.

Record ScanResult := {
  sessions : list SessionInfo;
  total : nat;
}.

(** [known.clear()] followed by the loop of [known.insert]. *)
Definition refresh (fs : FileSystem) (sessions : list SessionInfo)
    (known : gset Str.t) : gset Str.t :=
  foldl
    (fun known session =>
       match canonicalize fs (path session) with
       | Some canon => {[ Path.to_string_lossy canon ]} ∪ known
       | None => known
       end)
    ∅ sessions.

(** The end of the patched [scan_sessions]; [scanned] is the outcome of
    the scan that precedes it, after [map_err]. *)
Definition scan_sessions {E} (fs : FileSystem) (state : AppState)
    (scanned : Result (list SessionInfo) E)
  : Result ScanResult E * AppState :=
  match scanned with
  | Err e => (Err e, state)
  | Ok sessions =>
      let state' :=
        match lock (known_paths state) with
        | Some known =>
            {| known_paths :=
                 {| poisoned := false; data := refresh fs sessions known |} |}
        | None => state
        end in
      (Ok {| sessions := sessions; total := length sessions |}, state')
  end.

End Commands.

(** ** The metadata store *)

Module VaultDb.

(** Modelled from the spec: the session handed to [upsert_batch], which
    [add_test.py] builds with [create_test_session(id, mtime)] and whose
    declaration is in [vault_db.rs]: an id and the modification time that is
    recorded for it. *)
Record SessionEntry := {
  entry_id : Str.t;
  mtime : Z;
}.

(** Modelled from the spec: [create_test_session] of the test module. *)
Definition create_test_session (id : string) (mtime : Z) : SessionEntry :=
  {| entry_id := Str.lit id; mtime := mtime |}.

(** Modelled from the spec: [VaultDb::open_in_memory], an empty store of
    records keyed by session id. *)
Definition open_in_memory : gmap Str.t SessionEntry := ∅.

(** Modelled from the spec: [VaultDb::upsert_batch] inserts or overwrites
    the record of each supplied session, keyed by id. *)
Definition upsert_batch (db : gmap Str.t SessionEntry)
    (sessions : list SessionEntry) : gmap Str.t SessionEntry :=
  foldl (fun db s => <[entry_id s := s]> db) db sessions.

(** Modelled from the spec: [VaultDb::get_all_session_mtimes] returns the
    full mapping from id to last recorded modification time. *)
Definition get_all_session_mtimes (db : gmap Str.t SessionEntry)
  : gmap Str.t Z :=
  mtime <$> db.

End VaultDb.

(** ** The commands before the patch *)

Module Original.

Import Commands.

(** [read_file_content] as [update_commands_read.py] finds it (its
    [search] text): no gate, the size test and the read are on the
    requested path. *)
Definition read_file_content (fs : FileSystem) (path : Path.t)
  : Result Str.t ReadError :=
  if negb (path_exists fs path) then Err (FileNotFound path)
  else
    match metadata_len fs path with
    | None => Err MetadataError
    | Some len =>
        if MAX_SIZE <? len then Err (FileTooLarge len MAX_SIZE)
        else
          match read_to_string fs path with
          | Some content => Ok content
          | None => Err ReadFailed
          end
    end.

End Original.

(** A run of scans, each one on the state the previous one left. *)
Definition scan_all {E} (fs : FileSystem) (state : Commands.AppState)
    (scans : list (Commands.Result (list Commands.SessionInfo) E))
  : Commands.AppState :=
  foldl (fun state scanned => (Commands.scan_sessions fs state scanned).2)
        state scans.

(** ** The patch scripts *)

Module Py.

(** [p] starts [s]. *)
Fixpoint startswith (s p : Str.t) : bool :=
  match p, s with
  | [], _ => true
  | _ :: _, [] => false
  | a :: p', c :: s' => bool_decide (c = a) && startswith s' p'
  end.

(** [sub in s] *)
Fixpoint contains (sub s : Str.t) : bool :=
  startswith s sub
  || match s with
     | [] => false
     | _ :: s' => contains sub s'
     end.

(** [str.replace] with a pattern that is not empty: the occurrences are
    taken from left to right and do not overlap; [skip] counts the
    characters of the occurrence just replaced that are still to pass. *)
Fixpoint replace_from (old new s : Str.t) (skip : nat) : Str.t :=
  match s with
  | [] => []
  | c :: s' =>
      match skip with
      | S k => replace_from old new s' k
      | O =>
          if startswith s old
          then new ++ replace_from old new s' (length old - 1)
          else c :: replace_from old new s' 0
      end
  end.

(** [s.replace(old, new)]; an empty [old] matches before every character
    and at the end. *)
Definition replace (s old new : Str.t) : Str.t :=
  match old with
  | [] => new ++ concat (List.map (fun c => c :: new) s)
  | _ :: _ => replace_from old new s 0
  end.

(** A file as the scripts meet it: [content] is the text [f.read()]
    returns in text mode ([None]: it raises), [writable] tells whether
    [open(path, "w")] succeeds.  The text is followed, not the bytes that
    store it, and a write that raises once the file is open is not
    followed. *)
Record File := {
  content : option Str.t;
  writable : bool;
}.

(** How a call of [replace_file_content] ends. *)
Inductive Outcome :=
| Modified          (* "Successfully modified {path}", the call returns *)
| SearchNotFound    (* "Error: Search string not found in {path}", exit 1 *)
| Failed.           (* "Error modifying file: {e}", exit 1 *)

(** [replace_file_content] of [update_commands.py] and
    [update_commands_read.py], on the files by path. *)
Definition replace_file_content (fs : gmap Str.t File) (path : Str.t)
    (search_str replace_str : Str.t) : Outcome * gmap Str.t File :=
  match fs !! path with
  | None => (Failed, fs)
  | Some file =>
      match content file with
      | None => (Failed, fs)
      | Some text =>
          if negb (contains search_str text) then (SearchNotFound, fs)
          else if writable file then
            (Modified,
             <[path := {| content := Some (replace text search_str replace_str);
                          writable := true |}]> fs)
          else (Failed, fs)
      end
  end.

(** The two calls that end [update_commands.py]: [sys.exit] in the first
    one stops the script. *)
Definition update_commands (fs : gmap Str.t File) (path : Str.t)
    (search1 replace1 search2 replace2 : Str.t)
  : Outcome * gmap Str.t File :=
  match replace_file_content fs path search1 replace1 with
  | (Modified, fs1) => replace_file_content fs1 path search2 replace2
  | stopped => stopped
  end.

End Py.

(** * The vocabulary of the properties *)

(** ** The three rules of the gate *)

(** Rule (a): the canonical path lies under the canonical vault root. *)
Definition under_vault_root (fs : FileSystem)
    (load_default : option Commands.Config)
    (canonical_path : Path.t) : Prop :=
  ∃ config vault_canon,
    load_default = Some config
    ∧ canonicalize fs (Commands.vault_path config) = Some vault_canon
    ∧ vault_canon `prefix_of` canonical_path.

(** Rule (b): an export root is configured and the canonical path lies
    under its canonical form. *)
Definition under_export_root (fs : FileSystem)
    (load_default : option Commands.Config)
    (canonical_path : Path.t) : Prop :=
  ∃ config export export_canon,
    load_default = Some config
    ∧ Commands.export_path config = Some export
    ∧ canonicalize fs export = Some export_canon
    ∧ export_canon `prefix_of` canonical_path.

(** Rule (c): the canonical path, as a string, is a member of the set the
    lock on [known_paths] gives. *)
Definition in_known_paths (state : Commands.AppState)
    (canonical_path : Path.t) : Prop :=
  ∃ known,
    Commands.lock (Commands.known_paths state) = Some known
    ∧ Path.to_string_lossy canonical_path ∈ known.

(** ** The paths of a cycle *)

(** The canonical paths of the sessions of a cycle, as the strings the set
    holds. *)
Definition scanned_path (fs : FileSystem)
    (sessions : list Commands.SessionInfo) (s : Str.t) : Prop :=
  ∃ session canon,
    session ∈ sessions
    ∧ canonicalize fs (Commands.path session) = Some canon
    ∧ s = Path.to_string_lossy canon.

(** ** User texts *)

(** The text of a line that is tagged as a user entry ([kind] is 1), is a
    string and is more than 5 bytes long in UTF-8. *)
Definition user_text (line : Line) : option Str.t :=
  match line with
  | LineOk (Some obj) =>
      if bool_decide (Json.get "kind" obj ≫= Json.as_i64 = Some 1) then
        match Json.get "v" obj ≫= Json.as_str with
        | Some text => if 5 <? Str.len text then Some text else None
        | None => None
        end
      else None
  | _ => None
  end.

(** The first such text among some lines. *)
Definition first_user_text (ls : list Line) : option Str.t :=
  head (omap user_text ls).

(** The text the fallbacks find: the text of the first request of a
    single-document file, or the first user text among the 20 lines that
    follow the header of a line-delimited file. *)
Definition fallback_text (fs : FileSystem) (path : Path.t) (h : Header)
  : option Str.t :=
  match h_first_message_text h with
  | Some s => Some s
  | None =>
      if is_jsonl path then
        file ← open fs path;
        first_user_text (take 20 (drop 1 (lines file)))
      else None
  end.

(** ** The schema of the rewritten method *)

(** A key occurs at most once among the members of an object. *)
Definition at_most_once (key : string) (members : list (Str.t * Json.Value))
  : bool :=
  bool_decide (length (De.occurrences key members) ≤ 1)%nat.

Definition string_or_null (o : option Json.Value) : bool :=
  match o with
  | None | Some Json.Null | Some (Json.String _) => true
  | _ => false
  end.

Definition i64_or_null (o : option Json.Value) : bool :=
  match o with
  | None | Some Json.Null => true
  | Some v => bool_decide (is_Some (Json.as_i64 v))
  end.

(** [message] is absent, [null], or an object whose [text], given at most
    once, is a string or [null]. *)
Definition message_conforms (o : option Json.Value) : bool :=
  match o with
  | None | Some Json.Null => true
  | Some (Json.Object mm) =>
      at_most_once "text" mm
      && string_or_null (Json.map_get (Str.lit "text") mm)
  | _ => false
  end.

(** [requests] is absent, [null], or an array that is empty or starts with
    an object whose [message], given at most once, conforms. *)
Definition requests_conform (o : option Json.Value) : bool :=
  match o with
  | None | Some Json.Null | Some (Json.Array []) => true
  | Some (Json.Array (Json.Object rm :: _)) =>
      at_most_once "message" rm
      && message_conforms (Json.map_get (Str.lit "message") rm)
  | _ => false
  end.

(** The documents that have the shape [QuickMetadata] declares: an object
    that gives each of the four keys at most once, with a string or [null]
    for [sessionId] and [customTitle], an [i64] or [null] for
    [creationDate], and conforming [requests]. *)
Definition conforming (doc : Json.Value) : bool :=
  match doc with
  | Json.Object members =>
      at_most_once "sessionId" members
      && at_most_once "creationDate" members
      && at_most_once "customTitle" members
      && at_most_once "requests" members
      && string_or_null (Json.map_get (Str.lit "sessionId") members)
      && i64_or_null (Json.map_get (Str.lit "creationDate") members)
      && string_or_null (Json.map_get (Str.lit "customTitle") members)
      && requests_conform (Json.map_get (Str.lit "requests") members)
  | _ => false
  end.

(** The files on which the two methods are compared: a line-delimited
    file whose header has a title or has no first request text; a
    single-document file that the full parser accepts and that conforms; and
    a file from which neither method gets anything (it cannot be opened, the
    header line is not read, or the full parser rejects the content and the
    field-selective reader does not return a [QuickMetadata] either). *)
Definition within_schema (fs : FileSystem) (path : Path.t) : bool :=
  if is_jsonl path then
    match read_json_old fs path with
    | None => true
    | Some json =>
        bool_decide (is_Some (Json.get "customTitle" json ≫= Json.as_str))
        || bool_decide (first_request_text_old json = None)
    end
  else
    match open fs path with
    | None => true
    | Some file =>
        match document file with
        | Some doc => conforming doc
        | None =>
            match skimmed file ≫= De.QuickMetadata_de with
            | None => true
            | Some _ => false
            end
        end
    end.

(** * Sample data *)

(** A file system that holds one file. *)
Definition one_file (path : Path.t) (file : File) (size : option Z)
  : FileSystem :=
  {| open := fun p => if bool_decide (p = path) then Some file else None;
     metadata_len := fun p => if bool_decide (p = path) then size else None;
     path_exists := fun p => bool_decide (p = path);
     canonicalize := fun p => if bool_decide (p = path) then Some p else None;
     read_to_string := fun _ => None |}.

(** Every epoch-millisecond value is a date. *)
Definition any_date (ts : Z) : bool := true.

(** A small world for the gate: a vault with one file, two files outside
    it (one of them above the size limit) and a link to the first of
    them. *)
Module GateWorld.

Import Commands.

Definition vault : Path.t := [Path.RootDir; Path.Normal (Str.lit "vault")].
Definition in_vault : Path.t := vault ++ [Path.Normal (Str.lit "a.json")].
Definition home : Path.t := [Path.RootDir; Path.Normal (Str.lit "home")].
Definition chat : Path.t := home ++ [Path.Normal (Str.lit "chat.jsonl")].
Definition big : Path.t := home ++ [Path.Normal (Str.lit "big.json")].
Definition link : Path.t := [Path.RootDir; Path.Normal (Str.lit "link")].

Definition fs : FileSystem :=
  {| open := fun _ => None;
     metadata_len := fun p =>
       if bool_decide (p = big) then Some (MAX_SIZE + 1)
       else if bool_decide (p ∈ [vault; in_vault; home; chat; link])
            then Some 2 else None;
     path_exists := fun p =>
       bool_decide (p ∈ [vault; in_vault; home; chat; big; link]);
     canonicalize := fun p =>
       if bool_decide (p = link) then Some chat
       else if bool_decide (p ∈ [vault; in_vault; home; chat; big])
            then Some p else None;
     read_to_string := fun p =>
       if bool_decide (p ∈ [in_vault; chat; big]) then Some (Str.lit "{}")
       else None |}.

Definition config : Config :=
  {| vault_path := vault; export_path := None |}.

(** The state at startup: nothing is known. *)
Definition startup : AppState :=
  {| known_paths := {| poisoned := false; data := ∅ |} |}.

End GateWorld.

Module Samples.

Import Json.

Definition ws : Str.t := Str.lit "project".

Definition json_path : Path.t :=
  [Path.RootDir; Path.Normal (Str.lit "ws"); Path.Normal (Str.lit "chat-7.json")].

Definition jsonl_path : Path.t :=
  [Path.RootDir; Path.Normal (Str.lit "ws"); Path.Normal (Str.lit "chat-8.jsonl")].

(** A single-document file. *)
Definition json_file (doc : Value) (size : option Z) : FileSystem :=
  one_file json_path {| lines := []; document := Some doc; skimmed := None |}
    size.

(** A line-delimited file. *)
Definition jsonl_file (ls : list Line) (size : option Z) : FileSystem :=
  one_file jsonl_path {| lines := ls; document := None; skimmed := None |}
    size.

Definition key (k : string) (v : Value) : Str.t * Value := (Str.lit k, v).

(** [{"sessionId":"s1","creationDate":1700000000000,"customTitle":"Hello"}] *)
Definition titled : Value :=
  Object [key "sessionId" (String (Str.lit "s1"));
          key "creationDate" (Num (PosInt 1700000000000));
          key "customTitle" (String (Str.lit "Hello"))].

(** No title, and a first request whose text has 80 characters. *)
Definition first_request_80 : Value :=
  Object [key "requests"
            (Array [Object [key "message"
                              (Object [key "text"
                                         (String (replicate 80 98%N))])];
                    Null])].


(** [{"sessionId":123}] *)
Definition numeric_id : Value :=
  Object [key "sessionId" (Num (PosInt 123))].

(** [["s1",null,null]]: the fields of [QuickMetadata] in order. *)
Definition positional : Value :=
  Array [String (Str.lit "s1"); Null; Null].

(** A file that holds [{"sessionId":"s1","other":"\ud800"}]: the escape
    under [other] is not a character, so the full parser rejects the
    content, and the field-selective reader skips it. *)
Definition lone_surrogate : FileSystem :=
  one_file json_path
    {| lines := []; document := None;
       skimmed := Some (Object [key "sessionId" (String (Str.lit "s1"));
                                key "other" Null]) |}
    (Some 40).

(** A header line: [{"kind":0,"v":...}] *)
Definition header (v : Value) : Line :=
  LineOk (Some (Object [key "kind" (Num (PosInt 0)); key "v" v])).

(** A user entry: [{"kind":1,"v":text}] *)
Definition user (text : Str.t) : Line :=
  LineOk (Some (Object [key "kind" (Num (PosInt 1)); key "v" (String text)])).

(** A header without a title, then a text of three characters and six
    bytes, then a longer one. *)
Definition accented : list Line :=
  [header (Object [key "sessionId" (String (Str.lit "s2"))]);
   user [233%N; 233%N; 233%N];
   user (Str.lit "a longer question")].

(** A header without a title, then a short user text, then a line that is
    not JSON, then a user text that qualifies. *)
Definition third_line : list Line :=
  [header (Object [key "sessionId" (String (Str.lit "s2"))]);
   user (Str.lit "hi");
   LineOk None;
   user (Str.lit "How do I sort a list?")].

(** A header that carries the requests itself. *)
Definition header_with_requests : list Line :=
  [header (Object [key "requests"
                     (Array [Object [key "message"
                                       (Object [key "text"
                                                  (String (Str.lit "hello there"))])]])])].

End Samples.

(** The metadata of the file [Samples.titled]. *)
Definition titled_metadata : SessionMetadata :=
  {| id := Str.lit "s1";
     source := Str.lit "vscode-copilot";
     title := Some (Str.lit "Hello");
     created_at := Some 1700000000000;
     vault_path := [];
     original_path := Samples.json_path;
     file_size := 70;
     workspace_name := Some Samples.ws;
     ide_origin := None |}.

(** * Properties *)

(** ** Paths and strings *)

Lemma starts_with_prefix (p base : Path.t) :
  Path.starts_with p base = true ↔ base `prefix_of` p.
Proof.
  revert p. induction base as [|b base IH]; intros p; simpl.
  - split; [intros _; apply prefix_nil | done].
  - destruct p as [|c p].
    + split; [done | intros [k Hk]; discriminate].
    + rewrite andb_true_iff, bool_decide_eq_true, IH. split.
      * intros [-> Hp]. by apply prefix_cons.
      * intros [k Hk]. injection Hk as -> ->. split; [done | by exists k].
Qed.

(** ** The read gate *)

Section Gate.

Import Commands.

Variable fs : FileSystem.

Lemma allowed_by_config_spec load_default canonical_path :
  allowed_by_config fs load_default canonical_path = true
  ↔ under_vault_root fs load_default canonical_path
    ∨ under_export_root fs load_default canonical_path.
Proof.
  unfold allowed_by_config, under_vault_root, under_export_root.
  destruct load_default as [config|];
    [|split; [done | by intros [(c & v & ? & _) | (c & e & ec & ? & _)]]].
  destruct (canonicalize fs (vault_path config)) as [vault_canon|] eqn:Hv;
    [destruct (Path.starts_with canonical_path vault_canon) eqn:Hs|]; simpl.
  { split; [intros _; left | done].
    exists config, vault_canon. by rewrite <- starts_with_prefix. }
  all: destruct (export_path config) as [export|] eqn:He;
    [destruct (canonicalize fs export) as [export_canon|] eqn:Hc;
     [destruct (Path.starts_with canonical_path export_canon) eqn:Hs'|]|].
  all: split; [first [done | intros _; right] |].
  all: try (exists config, export, export_canon;
            by rewrite <- starts_with_prefix).
  all: intros [(c & v & ? & ? & Hp) | (c & e & ec & ? & ? & ? & Hp)];
    simplify_eq; try done; apply starts_with_prefix in Hp; congruence.
Qed.

Lemma allowed_spec load_default state canonical_path :
  allowed fs load_default state canonical_path = true
  ↔ under_vault_root fs load_default canonical_path
    ∨ under_export_root fs load_default canonical_path
    ∨ in_known_paths state canonical_path.
Proof.
  unfold allowed.
  pose proof (allowed_by_config_spec load_default canonical_path) as Hcfg.
  destruct (allowed_by_config fs load_default canonical_path); simpl.
  - split; [intros _|done]. destruct Hcfg as [[?|?] _]; auto.
  - unfold in_known_paths.
    destruct (lock (known_paths state)) as [known|].
    + rewrite bool_decide_eq_true. split.
      * intros Hin. right; right. by exists known.
      * intros [Ha | [Hb | (k & Hk & Hin)]].
        -- destruct Hcfg as [_ Hcfg]. by specialize (Hcfg (or_introl Ha)).
        -- destruct Hcfg as [_ Hcfg]. by specialize (Hcfg (or_intror Hb)).
        -- by simplify_eq.
    + split; [done|].
      intros [Ha | [Hb | (k & Hk & Hin)]].
      * destruct Hcfg as [_ Hcfg]. by specialize (Hcfg (or_introl Ha)).
      * destruct Hcfg as [_ Hcfg]. by specialize (Hcfg (or_intror Hb)).
      * done.
Qed.

Lemma read_denied_iff load_default state path canonical_path :
  path_exists fs path = true →
  canonicalize fs path = Some canonical_path →
  read_file_content fs load_default state path = Err (AccessDenied path)
  ↔ allowed fs load_default state canonical_path = false.
Proof.
  intros Hex Hcanon. unfold read_file_content. rewrite Hex, Hcanon. simpl.
  destruct (allowed fs load_default state canonical_path); simpl.
  - split; [|done].
    destruct (metadata_len fs canonical_path) as [len|]; [|done].
    destruct (MAX_SIZE <? len); [done|].
    by destruct (read_to_string fs canonical_path).
  - done.
Qed.

End Gate.

Section GateClaims.

Import Commands.

(** C1: once the requested path is found and canonicalized, the read is
    authorized if and only if the canonical path lies under the vault root,
    or under the export root when one is configured, or is a member of the
    known-paths set; when no rule matches the call fails with the
    access-denied error, and only then. *)
Theorem read_file_content_authorization
    (fs : FileSystem) (load_default : option Config) (state : AppState)
    (path canonical_path : Path.t) :
  path_exists fs path = true →
  canonicalize fs path = Some canonical_path →
  (allowed fs load_default state canonical_path = true
   ↔ under_vault_root fs load_default canonical_path
     ∨ under_export_root fs load_default canonical_path
     ∨ in_known_paths state canonical_path)
  ∧ (read_file_content fs load_default state path = Err (AccessDenied path)
     ↔ ¬ (under_vault_root fs load_default canonical_path
          ∨ under_export_root fs load_default canonical_path
          ∨ in_known_paths state canonical_path)).
Proof.
  intros Hex Hcanon. split; [apply allowed_spec|].
  rewrite (read_denied_iff fs _ _ _ _ Hex Hcanon), <- allowed_spec.
  by destruct (allowed fs load_default state canonical_path).
Qed.

Lemma read_file_content_authorization_witness :
  read_file_content GateWorld.fs (Some GateWorld.config) GateWorld.startup
    GateWorld.link = Err (AccessDenied GateWorld.link)
  ↔ ¬ (under_vault_root GateWorld.fs (Some GateWorld.config) GateWorld.chat
       ∨ under_export_root GateWorld.fs (Some GateWorld.config) GateWorld.chat
       ∨ in_known_paths GateWorld.startup GateWorld.chat).
Proof.
  apply (read_file_content_authorization GateWorld.fs
           (Some GateWorld.config) GateWorld.startup GateWorld.link
           GateWorld.chat); reflexivity.
Defined.

(** C2, as the code has it: an authorized read of a file above the 50 MiB
    ceiling fails with the too-large error; a read that is not authorized
    fails with the access-denied error whatever the size of the file. *)
Theorem read_file_content_size_guard
    (fs : FileSystem) (load_default : option Config) (state : AppState)
    (path canonical_path : Path.t) (len : Z) :
  path_exists fs path = true →
  canonicalize fs path = Some canonical_path →
  metadata_len fs canonical_path = Some len →
  MAX_SIZE < len →
  (allowed fs load_default state canonical_path = true →
   read_file_content fs load_default state path
   = Err (FileTooLarge len (50 * 1024 * 1024)))
  ∧ (allowed fs load_default state canonical_path = false →
     read_file_content fs load_default state path = Err (AccessDenied path)).
Proof.
  intros Hex Hcanon Hlen Hbig. unfold read_file_content.
  rewrite Hex, Hcanon. simpl. split; intros ->; simpl; [|done].
  rewrite Hlen. by apply Z.ltb_lt in Hbig as ->.
Qed.

Lemma read_file_content_size_guard_witness :
  (allowed GateWorld.fs None
     {| known_paths :=
          {| poisoned := false;
             data := {[ Path.to_string_lossy GateWorld.big ]} |} |}
     GateWorld.big = true →
   read_file_content GateWorld.fs None
     {| known_paths :=
          {| poisoned := false;
             data := {[ Path.to_string_lossy GateWorld.big ]} |} |}
     GateWorld.big
   = Err (FileTooLarge (MAX_SIZE + 1) (50 * 1024 * 1024)))
  ∧ (allowed GateWorld.fs None
       {| known_paths :=
            {| poisoned := false;
               data := {[ Path.to_string_lossy GateWorld.big ]} |} |}
       GateWorld.big = false →
     read_file_content GateWorld.fs None
       {| known_paths :=
            {| poisoned := false;
               data := {[ Path.to_string_lossy GateWorld.big ]} |} |}
       GateWorld.big = Err (AccessDenied GateWorld.big)).
Proof.
  apply (read_file_content_size_guard GateWorld.fs None _ GateWorld.big
           GateWorld.big (MAX_SIZE + 1)); reflexivity.
Defined.

(** C2 as stated fails: the file of [GateWorld.big] is above the ceiling,
    the request for it is denied, and the error is the access-denied one,
    not the too-large one. *)
Lemma read_file_content_oversize_denied :
  path_exists GateWorld.fs GateWorld.big = true
  ∧ canonicalize GateWorld.fs GateWorld.big = Some GateWorld.big
  ∧ metadata_len GateWorld.fs GateWorld.big = Some (MAX_SIZE + 1)
  ∧ MAX_SIZE < MAX_SIZE + 1
  ∧ read_file_content GateWorld.fs (Some GateWorld.config) GateWorld.startup
      GateWorld.big = Err (AccessDenied GateWorld.big)
  ∧ read_file_content GateWorld.fs (Some GateWorld.config) GateWorld.startup
      GateWorld.big ≠ Err (FileTooLarge (MAX_SIZE + 1) MAX_SIZE).
Proof. repeat split; done. Qed.

(** C10: when the configuration does not load, the two root rules are
    skipped without an error, and the read is authorized exactly when the
    canonical path is a member of the known-paths set. *)
Theorem read_file_content_without_config
    (fs : FileSystem) (state : AppState) (path canonical_path : Path.t) :
  path_exists fs path = true →
  canonicalize fs path = Some canonical_path →
  allowed_by_config fs None canonical_path = false
  ∧ (allowed fs None state canonical_path = true
     ↔ in_known_paths state canonical_path)
  ∧ (read_file_content fs None state path = Err (AccessDenied path)
     ↔ ¬ in_known_paths state canonical_path).
Proof.
  intros Hex Hcanon.
  assert (allowed fs None state canonical_path = true
          ↔ in_known_paths state canonical_path) as Hiff.
  { rewrite allowed_spec. split; [|auto].
    by intros [(c & v & ? & _) | [(c & e & ec & ? & _) | ?]]. }
  split; [done|]. split; [done|].
  rewrite (read_denied_iff fs _ _ _ _ Hex Hcanon), <- Hiff.
  by destruct (allowed fs None state canonical_path).
Qed.

Lemma read_file_content_without_config_witness :
  allowed_by_config GateWorld.fs None GateWorld.in_vault = false
  ∧ (allowed GateWorld.fs None GateWorld.startup GateWorld.in_vault = true
     ↔ in_known_paths GateWorld.startup GateWorld.in_vault)
  ∧ (read_file_content GateWorld.fs None GateWorld.startup GateWorld.in_vault
     = Err (AccessDenied GateWorld.in_vault)
     ↔ ¬ in_known_paths GateWorld.startup GateWorld.in_vault).
Proof.
  apply (read_file_content_without_config GateWorld.fs GateWorld.startup
           GateWorld.in_vault GateWorld.in_vault); reflexivity.
Defined.

End GateClaims.

(** ** The known-paths refresh *)

Section Refresh.

Import Commands.

Variable fs : FileSystem.

Lemma elem_of_insert_loop (sessions : list SessionInfo) (acc : gset Str.t)
    (s : Str.t) :
  s ∈ foldl
        (fun known session =>
           match canonicalize fs (path session) with
           | Some canon => {[ Path.to_string_lossy canon ]} ∪ known
           | None => known
           end)
        acc sessions
  ↔ s ∈ acc ∨ scanned_path fs sessions s.
Proof.
  revert acc. induction sessions as [|x xs IH]; intros acc; simpl.
  - split; [auto|]. intros [?|(session & canon & Hin & _)]; [done|].
    by apply elem_of_nil in Hin.
  - rewrite IH. unfold scanned_path. split.
    + intros [Hacc | (session & canon & Hin & Hc & ->)].
      * destruct (canonicalize fs (path x)) as [canon|] eqn:Hx; [|auto].
        apply elem_of_union in Hacc as [Hs | ?]; [|auto].
        apply elem_of_singleton in Hs as ->. right.
        exists x, canon. split; [apply list_elem_of_here | done].
      * right. exists session, canon.
        split; [by apply list_elem_of_further | done].
    + intros [Hacc | (session & canon & Hin & Hc & ->)].
      * left. destruct (canonicalize fs (path x)); set_solver.
      * apply elem_of_cons in Hin as [-> | Hin].
        -- left. rewrite Hc. set_solver.
        -- right. by exists session, canon.
Qed.

Lemma elem_of_refresh sessions known s :
  s ∈ refresh fs sessions known ↔ scanned_path fs sessions s.
Proof.
  unfold refresh. rewrite elem_of_insert_loop. set_solver.
Qed.

End Refresh.

Section RefreshClaims.

Import Commands.

(** C6: a scan cycle that completes with the lock granted leaves in the
    known-paths set exactly the canonical paths of the sessions of that
    cycle, whatever the set held before.  A path that no rule covers is
    denied; once its canonical form is among the paths of a completed
    cycle, the read of the same path is no longer denied. *)
Theorem known_paths_after_scan
    (fs : FileSystem) (load_default : option Config) (state : AppState)
    (sessions : list SessionInfo) (path canonical_path : Path.t) :
  poisoned (known_paths state) = false →
  path_exists fs path = true →
  canonicalize fs path = Some canonical_path →
  (∃ known',
     lock (known_paths (@scan_sessions Str.t fs state (Ok sessions)).2)
     = Some known'
     ∧ ∀ s, s ∈ known' ↔ scanned_path fs sessions s)
  ∧ (¬ under_vault_root fs load_default canonical_path →
     ¬ under_export_root fs load_default canonical_path →
     ¬ in_known_paths state canonical_path →
     read_file_content fs load_default state path = Err (AccessDenied path))
  ∧ (scanned_path fs sessions (Path.to_string_lossy canonical_path) →
     allowed fs load_default
       (@scan_sessions Str.t fs state (Ok sessions)).2 canonical_path = true
     ∧ read_file_content fs load_default
         (@scan_sessions Str.t fs state (Ok sessions)).2 path
       ≠ Err (AccessDenied path)).
Proof.
  intros Hlock Hex Hcanon.
  assert (lock (known_paths (@scan_sessions Str.t fs state (Ok sessions)).2)
          = Some (refresh fs sessions (data (known_paths state)))) as Hafter.
  { unfold scan_sessions, lock. simpl. by rewrite Hlock. }
  split; [|split].
  - eexists. split; [exact Hafter|]. intros s. apply elem_of_refresh.
  - intros Ha Hb Hc.
    apply (read_denied_iff fs _ _ _ _ Hex Hcanon).
    destruct (allowed fs load_default state canonical_path) eqn:Hal; [|done].
    apply allowed_spec in Hal. tauto.
  - intros Hin.
    assert (allowed fs load_default
              (@scan_sessions Str.t fs state (Ok sessions)).2 canonical_path
            = true) as Hal.
    { apply allowed_spec. right; right. eexists. split; [exact Hafter|].
      by apply elem_of_refresh. }
    split; [done|].
    rewrite (read_denied_iff fs _ _ _ _ Hex Hcanon). congruence.
Qed.

Lemma known_paths_after_scan_witness :
  (∃ known',
     lock (known_paths
             (@scan_sessions Str.t GateWorld.fs GateWorld.startup
                (Ok [ {| path := GateWorld.link |} ])).2)
     = Some known'
     ∧ ∀ s, s ∈ known'
            ↔ scanned_path GateWorld.fs [ {| path := GateWorld.link |} ] s)
  ∧ (¬ under_vault_root GateWorld.fs (Some GateWorld.config) GateWorld.chat →
     ¬ under_export_root GateWorld.fs (Some GateWorld.config) GateWorld.chat →
     ¬ in_known_paths GateWorld.startup GateWorld.chat →
     read_file_content GateWorld.fs (Some GateWorld.config) GateWorld.startup
       GateWorld.chat = Err (AccessDenied GateWorld.chat))
  ∧ (scanned_path GateWorld.fs [ {| path := GateWorld.link |} ]
       (Path.to_string_lossy GateWorld.chat) →
     allowed GateWorld.fs (Some GateWorld.config)
       (@scan_sessions Str.t GateWorld.fs GateWorld.startup
          (Ok [ {| path := GateWorld.link |} ])).2 GateWorld.chat = true
     ∧ read_file_content GateWorld.fs (Some GateWorld.config)
         (@scan_sessions Str.t GateWorld.fs GateWorld.startup
            (Ok [ {| path := GateWorld.link |} ])).2 GateWorld.chat
       ≠ Err (AccessDenied GateWorld.chat)).
Proof.
  apply (known_paths_after_scan GateWorld.fs (Some GateWorld.config)
           GateWorld.startup [ {| path := GateWorld.link |} ]
           GateWorld.chat GateWorld.chat); reflexivity.
Defined.

End RefreshClaims.

(** ** Titles *)

Lemma lit_dots_count : Str.chars_count (Str.lit "...") = 3.
Proof. reflexivity. Qed.

Lemma truncate_title_short (s : Str.t) :
  Str.chars_count s <= 60 → truncate_title s = s.
Proof.
  unfold truncate_title, Str.chars_count, Str.chars_take. intros Hle.
  destruct (60 <? Z.of_nat (length s)) eqn:Hlt; [lia|].
  apply take_ge. lia.
Qed.

Lemma truncate_title_long (s : Str.t) :
  60 < Str.chars_count s →
  truncate_title s = Str.chars_take 60 s ++ Str.lit "..."
  ∧ Str.chars_count (Str.chars_take 60 s) = 60
  ∧ Str.chars_count (truncate_title s) = 63.
Proof.
  unfold truncate_title, Str.chars_count, Str.chars_take. intros Hlt.
  destruct (60 <? Z.of_nat (length s)) eqn:Hb; [|lia].
  rewrite length_app, length_take.
  change (length (Str.lit "...")) with 3%nat. repeat split; lia.
Qed.

Lemma len_nonneg (s : Str.t) : 0 <= Str.len s.
Proof.
  induction s as [|c s IH]; simpl; [lia|].
  unfold Str.len_utf8. repeat case_match; lia.
Qed.

Lemma chars_count_le_len (s : Str.t) : Str.chars_count s <= Str.len s.
Proof.
  unfold Str.chars_count. induction s as [|c s IH]; simpl length; simpl Str.len;
    [lia|].
  unfold Str.len_utf8. repeat case_match; lia.
Qed.

Lemma user_message_title_text (line : Line) :
  user_message_title line = truncate_title <$> user_text line.
Proof.
  unfold user_message_title, user_text.
  destruct line as [|[obj|]]; try done.
  case_bool_decide; [|done].
  destruct (Json.get "v" obj ≫= Json.as_str) as [text|]; [|done].
  destruct text as [|c text]; [done|].
  cbn [Str.is_empty negb andb]. by destruct (5 <? Str.len (c :: text)).
Qed.

Lemma first_user_message_text (ls : list Line) :
  first_user_message ls = truncate_title <$> first_user_text ls.
Proof.
  unfold first_user_text. induction ls as [|line ls IH]; [done|].
  simpl. rewrite user_message_title_text.
  destruct (user_text line); simpl; [done | exact IH].
Qed.

Lemma first_user_text_found (ls : list Line) (i : nat) (line : Line)
    (text : Str.t) :
  ls !! i = Some line →
  user_text line = Some text →
  (∀ j l, (j < i)%nat → ls !! j = Some l → user_text l = None) →
  first_user_text ls = Some text.
Proof.
  unfold first_user_text. revert i.
  induction ls as [|x ls IH]; intros i Hi Ht Hbefore; [done|].
  destruct i as [|i]; simpl in *.
  - simplify_eq. by rewrite Ht.
  - rewrite (Hbefore 0%nat x) by (done || lia).
    apply (IH i); [done..|].
    intros j l Hj Hl. apply (Hbefore (S j) l); [lia | done].
Qed.

Lemma first_user_text_none (ls : list Line) :
  (∀ line, line ∈ ls → user_text line = None) →
  first_user_text ls = None.
Proof.
  unfold first_user_text. induction ls as [|x ls IH]; intros Hall; [done|].
  simpl. rewrite (Hall x) by apply list_elem_of_here.
  apply IH. intros line Hin. apply Hall. by apply list_elem_of_further.
Qed.

(** ** The extractor *)

Section ExtractorFacts.

Variable representable : Z -> bool.
Variable fs : FileSystem.
Variable path : Path.t.
Variable workspace : Str.t.

Lemma extract_quick_metadata_header (h : Header) :
  read_header fs path = Some h →
  extract_quick_metadata representable fs path workspace
  = Some {| id := default (file_stem_or_default path) (h_session_id h);
            source := Str.lit "vscode-copilot";
            title := derive_title fs path h;
            created_at :=
              h_creation_date h ≫= timestamp_millis_opt representable;
            vault_path := [];
            original_path := path;
            file_size := default 0 (metadata_len fs path);
            workspace_name := Some workspace;
            ide_origin := None |}.
Proof. intros Hh. unfold extract_quick_metadata. by rewrite Hh. Qed.

Lemma extract_quick_metadata_inv (m : SessionMetadata) :
  extract_quick_metadata representable fs path workspace = Some m →
  ∃ h, read_header fs path = Some h
       ∧ id m = default (file_stem_or_default path) (h_session_id h)
       ∧ title m = derive_title fs path h
       ∧ file_size m = default 0 (metadata_len fs path).
Proof.
  destruct (read_header fs path) as [h|] eqn:Hh.
  - rewrite (extract_quick_metadata_header h Hh). intros [= <-].
    by exists h.
  - unfold extract_quick_metadata. by rewrite Hh.
Qed.

Lemma derive_title_fallback (h : Header) :
  h_custom_title h = None →
  derive_title fs path h = truncate_title <$> fallback_text fs path h.
Proof.
  unfold derive_title, fallback_text, jsonl_fallback. intros ->.
  destruct (h_first_message_text h) as [s|]; [done|].
  destruct (is_jsonl path); [|done]. simpl.
  destruct (open fs path) as [file|]; [|done]. simpl.
  apply first_user_message_text.
Qed.

End ExtractorFacts.

Section ExtractorClaims.

Variable representable : Z -> bool.

(** C9: when the header of the file is read but the size of the file is
    not, the extraction still returns metadata, with a size of 0. *)
Theorem file_size_defaults_to_zero
    (fs : FileSystem) (path : Path.t) (workspace : Str.t) (h : Header) :
  read_header fs path = Some h →
  metadata_len fs path = None →
  ∃ m, extract_quick_metadata representable fs path workspace = Some m
       ∧ file_size m = 0.
Proof.
  intros Hh Hlen. eexists. split.
  - by apply extract_quick_metadata_header.
  - simpl. by rewrite Hlen.
Qed.


End ExtractorClaims.

Lemma window_lookup (ls : list Line) (i : nat) :
  take 20 (drop 1 ls) !! i
  = if decide (i < 20)%nat then ls !! S i else None.
Proof.
  case_decide.
  - by rewrite lookup_take_lt, lookup_drop.
  - apply lookup_take_ge. lia.
Qed.

Section LineDelimitedClaims.

Variable representable : Z -> bool.

(** C5, as the code has it: when the header of a line-delimited file has
    no title, the title comes from the 20 lines that follow the header: it
    is the truncated text of the first of them that is tagged as a user
    entry with a text of more than 5 bytes, and it is absent when none of
    them is. *)
Theorem jsonl_fallback_title
    (fs : FileSystem) (path : Path.t) (workspace : Str.t) (file : File)
    (h : Header) :
  is_jsonl path = true →
  open fs path = Some file →
  read_header fs path = Some h →
  h_custom_title h = None →
  ∃ m, extract_quick_metadata representable fs path workspace = Some m
       ∧ (∀ i line text,
            (i < 20)%nat →
            lines file !! S i = Some line →
            user_text line = Some text →
            (∀ j l, (j < i)%nat → lines file !! S j = Some l →
                    user_text l = None) →
            title m = Some (truncate_title text))
       ∧ ((∀ i line, (i < 20)%nat → lines file !! S i = Some line →
                     user_text line = None) →
          title m = None).
Proof.
  intros Hjsonl Hopen Hh Hnone. eexists. split.
  { by apply extract_quick_metadata_header. }
  cbn [title]. rewrite (derive_title_fallback _ _ _ Hnone).
  assert (h_first_message_text h = None) as Hfirst.
  { unfold read_header in Hh. rewrite Hjsonl, Hopen in Hh. simpl in Hh.
    destruct (header_line file) as [wrapper|]; [|done]. simpl in Hh.
    destruct (Json.get "v" wrapper); [|done]. by injection Hh as <-. }
  unfold fallback_text. rewrite Hfirst, Hjsonl, Hopen. simpl. split.
  - intros i line text Hi Hline Htext Hbefore.
    rewrite (first_user_text_found _ i line text); [done| |done|].
    + rewrite window_lookup. by case_decide.
    + intros j l Hj Hl. rewrite window_lookup in Hl.
      case_decide; [|done]. by apply (Hbefore j).
  - intros Hall. rewrite first_user_text_none; [done|].
    intros line [i Hi]%list_elem_of_lookup. rewrite window_lookup in Hi.
    case_decide; [|done]. by apply (Hall i).
Qed.

End LineDelimitedClaims.

(** ** The rewritten method against the one it replaces *)

Lemma map_get_occurrences (key : string) (members : list (Str.t * Json.Value)) :
  Json.map_get (Str.lit key) members = last (De.occurrences key members).
Proof.
  unfold De.occurrences. induction members as [|[k v] rest IH]; [done|].
  cbn [Json.map_get]. rewrite IH, filter_cons. unfold Str.eqb. simpl.
  destruct (decide (k = Str.lit key)) as [Hk|Hk].
  - rewrite (bool_decide_eq_true_2 _ Hk), fmap_cons, last_cons. simpl.
    by destruct (last (filter (λ kv, kv.1 = Str.lit key) rest).*2).
  - rewrite (bool_decide_eq_false_2 _ Hk).
    by destruct (last (filter (λ kv, kv.1 = Str.lit key) rest).*2).
Qed.

Lemma field_once {A} (de : Json.Value → option A) (key : string)
    (members : list (Str.t * Json.Value)) :
  at_most_once key members = true →
  De.field de key members
  = match Json.map_get (Str.lit key) members with
    | None => Some None
    | Some v => De.option_ de v
    end.
Proof.
  unfold at_most_once, De.field. rewrite bool_decide_eq_true.
  rewrite map_get_occurrences.
  destruct (De.occurrences key members) as [|v [|w l]]; simpl; [done..|lia].
Qed.

Lemma field_string (key : string) (members : list (Str.t * Json.Value)) :
  at_most_once key members = true →
  string_or_null (Json.map_get (Str.lit key) members) = true →
  De.field De.string_ key members
  = Some (Json.map_get (Str.lit key) members ≫= Json.as_str).
Proof.
  intros Honce Hty. rewrite (field_once _ _ _ Honce).
  by destruct (Json.map_get (Str.lit key) members) as [[]|].
Qed.

Lemma field_i64 (key : string) (members : list (Str.t * Json.Value)) :
  at_most_once key members = true →
  i64_or_null (Json.map_get (Str.lit key) members) = true →
  De.field De.i64 key members
  = Some (Json.map_get (Str.lit key) members ≫= Json.as_i64).
Proof.
  intros Honce Hty. rewrite (field_once _ _ _ Honce).
  destruct (Json.map_get (Str.lit key) members) as [v|]; [|done].
  destruct v as [| |n| | |]; try done; simpl in Hty;
    apply bool_decide_eq_true in Hty as [z Hz]; simpl in *.
  destruct n; simpl in *; [destruct (_ <=? _)|..]; by simplify_eq.
Qed.

Lemma field_message (rm : list (Str.t * Json.Value)) :
  at_most_once "message" rm = true →
  message_conforms (Json.map_get (Str.lit "message") rm) = true →
  ∃ message,
    De.field De.MessageStub_de "message" rm = Some message
    ∧ message ≫= De.ms_text
      = (Json.map_get (Str.lit "message") rm ≫= Json.get "text")
          ≫= Json.as_str.
Proof.
  intros Honce Hty. rewrite (field_once _ _ _ Honce).
  destruct (Json.map_get (Str.lit "message") rm) as [v|];
    [|by exists None].
  destruct v as [| | | | |mm]; try done; [by exists None|].
  simpl in Hty. apply andb_true_iff in Hty as [Ho Hs].
  simpl. rewrite (field_string _ _ Ho Hs). simpl. by eexists.
Qed.

Lemma field_requests (members : list (Str.t * Json.Value)) :
  at_most_once "requests" members = true →
  requests_conform (Json.map_get (Str.lit "requests") members) = true →
  ∃ reqs,
    De.field De.FirstRequestOnly_de "requests" members = Some reqs
    ∧ reqs ≫= De.text = first_request_text_old (Json.Object members).
Proof.
  intros Honce Hty. rewrite (field_once _ _ _ Honce).
  unfold first_request_text_old. simpl.
  destruct (Json.map_get (Str.lit "requests") members) as [v|];
    [|by exists None].
  destruct v as [| | | |items|]; try done; [by exists None|].
  destruct items as [|x items]; [by eexists|].
  destruct x as [| | | | |rm]; try done.
  simpl in Hty. apply andb_true_iff in Hty as [Ho Hm].
  destruct (field_message rm Ho Hm) as (message & Hde & Htext).
  simpl. rewrite Hde. simpl. eexists. split; [done|]. simpl.
  rewrite Htext. by destruct (Json.map_get (Str.lit "message") rm).
Qed.

Lemma QuickMetadata_conforming (members : list (Str.t * Json.Value)) :
  conforming (Json.Object members) = true →
  ∃ md,
    De.QuickMetadata_de (Json.Object members) = Some md
    ∧ De.session_id md
      = Json.get "sessionId" (Json.Object members) ≫= Json.as_str
    ∧ De.creation_date md
      = Json.get "creationDate" (Json.Object members) ≫= Json.as_i64
    ∧ De.custom_title md
      = Json.get "customTitle" (Json.Object members) ≫= Json.as_str
    ∧ De.requests md ≫= De.text
      = first_request_text_old (Json.Object members).
Proof.
  unfold conforming. rewrite !andb_true_iff.
  intros [[[[[[[H1 H2] H3] H4] T1] T2] T3] T4].
  destruct (field_requests members H4 T4) as (reqs & Hreqs & Htext).
  simpl. rewrite (field_string _ _ H1 T1), (field_i64 _ _ H2 T2),
    (field_string _ _ H3 T3), Hreqs. simpl. by eexists.
Qed.

Lemma field_string_get (key : string) (members : list (Str.t * Json.Value))
    (r : option Str.t) :
  De.field De.string_ key members = Some r →
  r = Json.map_get (Str.lit key) members ≫= Json.as_str.
Proof.
  unfold De.field. rewrite map_get_occurrences.
  destruct (De.occurrences key members) as [|v [|w l]]; simpl;
    [by intros [= <-] | | done].
  destruct v; simpl; intros; by simplify_eq.
Qed.

Section SessionId.

Variable representable : Z -> bool.

(** C7, as the code has it: the id of the extracted metadata is the
    embedded id when there is one and the file stem (the base name without
    its extension) otherwise.  In a line-delimited file the embedded id is
    the string under [sessionId] in the [v] of the header line.  In a
    single-document file it is the string under [sessionId] when the
    document is an object, and the first element, when that is a string,
    when the document is an array: the derived deserializer also reads a
    struct from an array that holds its fields in order. *)
Theorem session_id_derivation
    (fs : FileSystem) (path : Path.t) (workspace : Str.t)
    (m : SessionMetadata) :
  extract_quick_metadata representable fs path workspace = Some m →
  ∃ file,
    open fs path = Some file
    ∧ if is_jsonl path then
        ∃ wrapper v,
          header_line file = Some wrapper
          ∧ Json.get "v" wrapper = Some v
          ∧ id m = default (default [] (Path.file_stem path))
                     (Json.get "sessionId" v ≫= Json.as_str)
      else
        ∃ doc,
          reader_document file = Some doc
          ∧ match doc with
            | Json.Object members =>
                id m = default (default [] (Path.file_stem path))
                         (Json.map_get (Str.lit "sessionId") members
                            ≫= Json.as_str)
            | Json.Array (first :: _) =>
                id m = default (default [] (Path.file_stem path))
                         (Json.as_str first)
            | _ => False
            end.
Proof.
  intros Hm.
  destruct (extract_quick_metadata_inv _ _ _ _ _ Hm) as (h & Hh & Hid & _).
  unfold read_header in Hh. rewrite Hid. clear Hid Hm.
  destruct (open fs path) as [file|]; [|by destruct (is_jsonl path)].
  exists file. split; [done|].
  destruct (is_jsonl path); simpl in Hh.
  - destruct (header_line file) as [wrapper|]; [|done]. simpl in Hh.
    destruct (Json.get "v" wrapper) as [v|] eqn:Hv; [|done].
    injection Hh as <-. by exists wrapper, v.
  - destruct (reader_document file) as [doc|]; [|done]. simpl in Hh.
    exists doc. split; [done|].
    destruct doc as [| | | |items|members]; try done.
    + destruct items as [|first [|d [|t more]]]; try done. simpl in Hh.
      destruct first; simpl in Hh; try done;
        repeat (match type of Hh with
                | context [De.option_ ?de ?v] =>
                    destruct (De.option_ de v); simpl in Hh; [|done]
                | context [match ?more with _ => _ end] =>
                    destruct more as [|? [|? ?]]; simpl in Hh; try done
                end);
        by injection Hh as <-.
    + simpl in Hh.
      destruct (De.field De.string_ "sessionId" members) as [sid|] eqn:Hsid;
        [|done].
      simpl in Hh.
      destruct (De.field De.i64 "creationDate" members); [|done].
      destruct (De.field De.string_ "customTitle" members); [|done].
      destruct (De.field De.FirstRequestOnly_de "requests" members); [|done].
      injection Hh as <-. simpl. by rewrite (field_string_get _ _ _ Hsid).
Qed.

End SessionId.

Section AgainstLegacy.

Variable representable : Z -> bool.

(** C3, as the code has it: the rewritten method returns what the method
    it replaces returned on a single-document file that the full parser
    accepts and that conforms to the shape [QuickMetadata] declares, on a
    line-delimited file whose header has a title or no first request text,
    and on a file from which neither method gets anything. *)
Theorem optimized_agrees_with_legacy
    (fs : FileSystem) (path : Path.t) (workspace : Str.t) :
  within_schema fs path = true →
  extract_quick_metadata representable fs path workspace
  = extract_quick_metadata_old representable fs path workspace.
Proof.
  unfold within_schema, extract_quick_metadata, extract_quick_metadata_old,
    read_header, read_json_old, derive_title, derive_title_old,
    reader_document.
  destruct (is_jsonl path) eqn:Hjsonl.
  - destruct (open fs path) as [file|]; [|done]. simpl.
    destruct (header_line file) as [wrapper|]; [|done]. simpl.
    destruct (Json.get "v" wrapper) as [v|]; [|done]. simpl.
    intros Hsch. do 2 f_equal.
    destruct (Json.get "customTitle" v ≫= Json.as_str) as [t|]; [done|].
    apply orb_true_iff in Hsch as [Hsome | Hnone].
    + apply bool_decide_eq_true in Hsome. by destruct Hsome.
    + apply bool_decide_eq_true in Hnone. by rewrite Hnone.
  - destruct (open fs path) as [file|]; [|done]. simpl.
    destruct (document file) as [doc|].
    + simpl. intros Hsch. destruct doc as [| | | | |members]; try done.
      destruct (QuickMetadata_conforming members Hsch)
        as (md & Hde & Hsid & Hdate & Htitle & Htext).
      rewrite Hde. cbn [mbind option_bind h_session_id h_creation_date
                        h_custom_title h_first_message_text].
      by rewrite Hsid, Hdate, Htitle, Htext.
    + destruct (skimmed file) as [doc|]; [|done]. simpl.
      by destruct (De.QuickMetadata_de doc).
Qed.

End AgainstLegacy.

(** ** Worked cases *)

Section Worked.

Import Samples.

Example extract_titled :
  extract_quick_metadata any_date (json_file titled (Some 70)) json_path ws
  = Some titled_metadata.
Proof. reflexivity. Qed.

Example extract_first_request_80 :
  title <$> extract_quick_metadata any_date
              (json_file first_request_80 (Some 200)) json_path ws
  = Some (Some (replicate 60 98%N ++ Str.lit "...")).
Proof. reflexivity. Qed.

Example extract_third_line :
  title <$> extract_quick_metadata any_date
              (jsonl_file third_line (Some 200)) jsonl_path ws
  = Some (Some (Str.lit "How do I sort a list?")).
Proof. reflexivity. Qed.

Example extract_stem_id :
  id <$> extract_quick_metadata any_date
           (json_file first_request_80 (Some 200)) json_path ws
  = Some (Str.lit "chat-7").
Proof. reflexivity. Qed.

Lemma session_id_derivation_witness :
  ∃ file,
    open (json_file titled (Some 70)) json_path = Some file
    ∧ if is_jsonl json_path then
        ∃ wrapper v,
          header_line file = Some wrapper
          ∧ Json.get "v" wrapper = Some v
          ∧ id titled_metadata
            = default (default [] (Path.file_stem json_path))
                (Json.get "sessionId" v ≫= Json.as_str)
      else
        ∃ doc,
          reader_document file = Some doc
          ∧ match doc with
            | Json.Object members =>
                id titled_metadata
                = default (default [] (Path.file_stem json_path))
                    (Json.map_get (Str.lit "sessionId") members
                       ≫= Json.as_str)
            | Json.Array (first :: _) =>
                id titled_metadata
                = default (default [] (Path.file_stem json_path))
                    (Json.as_str first)
            | _ => False
            end.
Proof.
  apply (session_id_derivation any_date (json_file titled (Some 70))
           json_path ws titled_metadata).
  reflexivity.
Defined.

(** C7 as stated fails: the document [["s1",null,null]] has no [sessionId]
    field, and the id is [s1], not the stem [chat-7] of the file. *)
Lemma positional_session_id :
  id <$> extract_quick_metadata any_date (json_file positional (Some 16))
           json_path ws
  = Some (Str.lit "s1")
  ∧ Json.get "sessionId" positional = None
  ∧ default [] (Path.file_stem json_path) = Str.lit "chat-7".
Proof. repeat split; reflexivity. Qed.

Lemma file_size_defaults_to_zero_witness :
  ∃ m, extract_quick_metadata any_date (json_file titled None) json_path ws
       = Some m
       ∧ file_size m = 0.
Proof.
  eapply (file_size_defaults_to_zero any_date (json_file titled None)
            json_path ws); reflexivity.
Defined.



Lemma jsonl_fallback_title_witness :
  ∃ m, extract_quick_metadata any_date (jsonl_file third_line (Some 200))
         jsonl_path ws = Some m
       ∧ (∀ i line text,
            (i < 20)%nat →
            third_line !! S i = Some line →
            user_text line = Some text →
            (∀ j l, (j < i)%nat → third_line !! S j = Some l →
                    user_text l = None) →
            title m = Some (truncate_title text))
       ∧ ((∀ i line, (i < 20)%nat → third_line !! S i = Some line →
                     user_text line = None) →
          title m = None).
Proof.
  eapply (jsonl_fallback_title any_date (jsonl_file third_line (Some 200))
            jsonl_path ws
            {| lines := third_line; document := None; skimmed := None |});
    reflexivity.
Defined.

(** C5 as stated fails: the second line is a user entry whose text has
    three characters; it is not skipped in favour of the third line, it is
    the title, because its UTF-8 encoding has six bytes. *)
Lemma short_text_taken :
  title <$> extract_quick_metadata any_date
              (jsonl_file accented (Some 200)) jsonl_path ws
  = Some (Some [233%N; 233%N; 233%N])
  ∧ Str.chars_count [233%N; 233%N; 233%N] = 3
  ∧ Str.len [233%N; 233%N; 233%N] = 6
  ∧ title <$> extract_quick_metadata any_date
                (jsonl_file accented (Some 200)) jsonl_path ws
    ≠ Some (Some (Str.lit "a longer question")).
Proof. repeat split; done. Qed.

Lemma optimized_agrees_with_legacy_witness :
  extract_quick_metadata any_date (json_file first_request_80 (Some 200))
    json_path ws
  = extract_quick_metadata_old any_date
      (json_file first_request_80 (Some 200)) json_path ws.
Proof.
  apply (optimized_agrees_with_legacy any_date
           (json_file first_request_80 (Some 200)) json_path ws).
  reflexivity.
Defined.

(** C3 as stated fails, in three ways.  A numeric [sessionId] makes the
    rewritten method give up where the old one fell back to the file stem;
    a first request in the header of a line-delimited file gave the old
    method a title that the rewritten one does not look for; and a value
    that is not valid under a key that is not read makes the old method give
    up where the rewritten one returns metadata. *)
Lemma optimized_differs_from_legacy :
  (extract_quick_metadata any_date (json_file numeric_id (Some 17))
     json_path ws = None
   ∧ id <$> extract_quick_metadata_old any_date
              (json_file numeric_id (Some 17)) json_path ws
     = Some (Str.lit "chat-7"))
  ∧ (title <$> extract_quick_metadata any_date
                 (jsonl_file header_with_requests (Some 80)) jsonl_path ws
     = Some None
     ∧ title <$> extract_quick_metadata_old any_date
                   (jsonl_file header_with_requests (Some 80)) jsonl_path ws
       = Some (Some (Str.lit "hello there")))
  ∧ (id <$> extract_quick_metadata any_date lone_surrogate json_path ws
     = Some (Str.lit "s1")
     ∧ extract_quick_metadata_old any_date lone_surrogate json_path ws
       = None).
Proof. repeat split; reflexivity. Qed.

End Worked.

(** ** The metadata store *)

Section Store.

Import VaultDb.

Lemma lookup_upsert_batch_fresh (db : gmap Str.t SessionEntry)
    (sessions : list SessionEntry) (k : Str.t) :
  k ∉ entry_id <$> sessions →
  upsert_batch db sessions !! k = db !! k.
Proof.
  unfold upsert_batch. revert db.
  induction sessions as [|s sessions IH]; intros db Hk; [done|].
  simpl. rewrite fmap_cons in Hk. apply not_elem_of_cons in Hk as [Hne Hk].
  rewrite IH by done. by apply lookup_insert_ne.
Qed.

(** C8: after one batch of three sessions with distinct ids is written to
    a fresh store, the modification times read back are those of the three
    sessions, and an id that was never inserted has none. *)
Theorem get_all_session_mtimes_after_upsert_batch
    (s1 s2 s3 : Str.t) (t1 t2 t3 : Z) :
  NoDup [s1; s2; s3] →
  get_all_session_mtimes
    (upsert_batch open_in_memory
       [ {| entry_id := s1; mtime := t1 |};
         {| entry_id := s2; mtime := t2 |};
         {| entry_id := s3; mtime := t3 |} ])
  = {[ s1 := t1; s2 := t2; s3 := t3 ]}
  ∧ ∀ k, k ∉ [s1; s2; s3] →
         get_all_session_mtimes
           (upsert_batch open_in_memory
              [ {| entry_id := s1; mtime := t1 |};
                {| entry_id := s2; mtime := t2 |};
                {| entry_id := s3; mtime := t3 |} ]) !! k = None.
Proof.
  intros Hdup.
  apply NoDup_cons in Hdup as [Hs1 Hdup].
  apply NoDup_cons in Hdup as [Hs2 _].
  apply not_elem_of_cons in Hs1 as [H12 Hs1].
  apply not_elem_of_cons in Hs1 as [H13 _].
  apply not_elem_of_cons in Hs2 as [H23 _].
  unfold get_all_session_mtimes. split.
  - apply map_eq. intros k. rewrite lookup_fmap.
    unfold upsert_batch, open_in_memory. simpl.
    destruct (decide (k = s1)) as [->|]; [by simplify_map_eq|].
    destruct (decide (k = s2)) as [->|]; [by simplify_map_eq|].
    destruct (decide (k = s3)) as [->|]; by simplify_map_eq.
  - intros k Hk. rewrite lookup_fmap, lookup_upsert_batch_fresh; [done|].
    by simpl.
Qed.

Lemma get_all_session_mtimes_after_upsert_batch_witness :
  get_all_session_mtimes
    (upsert_batch open_in_memory
       [ {| entry_id := Str.lit "s1"; mtime := 1000 |};
         {| entry_id := Str.lit "s2"; mtime := 2000 |};
         {| entry_id := Str.lit "s3"; mtime := 3000 |} ])
  = {[ Str.lit "s1" := 1000; Str.lit "s2" := 2000; Str.lit "s3" := 3000 ]}
  ∧ ∀ k, k ∉ [Str.lit "s1"; Str.lit "s2"; Str.lit "s3"] →
         get_all_session_mtimes
           (upsert_batch open_in_memory
              [ {| entry_id := Str.lit "s1"; mtime := 1000 |};
                {| entry_id := Str.lit "s2"; mtime := 2000 |};
                {| entry_id := Str.lit "s3"; mtime := 3000 |} ]) !! k = None.
Proof.
  apply (get_all_session_mtimes_after_upsert_batch
           (Str.lit "s1") (Str.lit "s2") (Str.lit "s3") 1000 2000 3000).
  apply (bool_decide_unpack _). reflexivity.
Defined.

(** The assertions of [test_get_all_session_mtimes]. *)
Example test_get_all_session_mtimes :
  let mtimes :=
    get_all_session_mtimes
      (upsert_batch open_in_memory
         [create_test_session "s1" 1000;
          create_test_session "s2" 2000;
          create_test_session "s3" 3000]) in
  size mtimes = 3%nat
  ∧ mtimes !! Str.lit "s1" = Some 1000
  ∧ mtimes !! Str.lit "s2" = Some 2000
  ∧ mtimes !! Str.lit "s3" = Some 3000
  ∧ mtimes !! Str.lit "s4" = None.
Proof. repeat split; by vm_compute. Qed.

End Store.

(** ** The gate at work *)

Section GateWorked.

Import Commands.

Example chat_denied_at_startup :
  read_file_content GateWorld.fs (Some GateWorld.config) GateWorld.startup
    GateWorld.link = Err (AccessDenied GateWorld.link).
Proof. reflexivity. Qed.

Example chat_read_after_scan :
  read_file_content GateWorld.fs (Some GateWorld.config)
    (@scan_sessions Str.t GateWorld.fs GateWorld.startup
       (Ok [ {| path := GateWorld.link |} ])).2 GateWorld.link
  = Ok (Str.lit "{}").
Proof. by vm_compute. Qed.

Example vault_file_read :
  read_file_content GateWorld.fs (Some GateWorld.config) GateWorld.startup
    GateWorld.in_vault = Ok (Str.lit "{}").
Proof. reflexivity. Qed.

Example vault_file_denied_without_config :
  read_file_content GateWorld.fs None GateWorld.startup GateWorld.in_vault
  = Err (AccessDenied GateWorld.in_vault).
Proof. reflexivity. Qed.

End GateWorked.

(** ** Paths at work *)

Example file_stem_plain :
  Path.file_stem [Path.RootDir; Path.Normal (Str.lit "chat.old.json")]
  = Some (Str.lit "chat.old").
Proof. reflexivity. Qed.

Example extension_plain :
  Path.extension [Path.RootDir; Path.Normal (Str.lit "chat.old.json")]
  = Some (Str.lit "json").
Proof. reflexivity. Qed.

Example file_stem_hidden :
  Path.file_stem [Path.Normal (Str.lit ".jsonl")] = Some (Str.lit ".jsonl")
  /\ Path.extension [Path.Normal (Str.lit ".jsonl")] = None.
Proof. split; reflexivity. Qed.

Example to_string_abs :
  Path.to_string_lossy
    [Path.RootDir; Path.Normal (Str.lit "a"); Path.Normal (Str.lit "b")]
  = Str.lit "/a/b".
Proof. reflexivity. Qed.

(** * Further properties of the commands *)

Section GateFurther.

Import Commands.

(** X1: the gate is sound.  When [read_file_content] returns a content,
    the path exists, one of the three rules covers its canonical form, the
    file has at most 50 MiB, and the content is that of the canonical
    path. *)
Theorem read_file_content_ok_sound
    (fs : FileSystem) (load_default : option Config) (state : AppState)
    (path : Path.t) (text : Str.t) :
  read_file_content fs load_default state path = Ok text →
  path_exists fs path = true
  ∧ ∃ canonical_path len,
      canonicalize fs path = Some canonical_path
      ∧ (under_vault_root fs load_default canonical_path
         ∨ under_export_root fs load_default canonical_path
         ∨ in_known_paths state canonical_path)
      ∧ metadata_len fs canonical_path = Some len
      ∧ len <= 50 * 1024 * 1024
      ∧ read_to_string fs canonical_path = Some text.
Proof.
  unfold read_file_content.
  destruct (path_exists fs path); [|done]. simpl.
  destruct (canonicalize fs path) as [canonical_path|]; [|done].
  destruct (allowed fs load_default state canonical_path) eqn:Hal; [|done].
  simpl.
  destruct (metadata_len fs canonical_path) as [len|] eqn:Hlen; [|done].
  destruct (MAX_SIZE <? len) eqn:Hsize; [done|].
  destruct (read_to_string fs canonical_path) as [c|] eqn:Hread; [|done].
  intros [= <-]. split; [done|]. exists canonical_path, len.
  apply allowed_spec in Hal. apply Z.ltb_ge in Hsize.
  unfold MAX_SIZE in Hsize. done.
Qed.

Lemma read_file_content_ok_sound_witness :
  path_exists GateWorld.fs GateWorld.in_vault = true
  ∧ ∃ canonical_path len,
      canonicalize GateWorld.fs GateWorld.in_vault = Some canonical_path
      ∧ (under_vault_root GateWorld.fs (Some GateWorld.config) canonical_path
         ∨ under_export_root GateWorld.fs (Some GateWorld.config)
             canonical_path
         ∨ in_known_paths GateWorld.startup canonical_path)
      ∧ metadata_len GateWorld.fs canonical_path = Some len
      ∧ len <= 50 * 1024 * 1024
      ∧ read_to_string GateWorld.fs canonical_path = Some (Str.lit "{}").
Proof.
  apply (read_file_content_ok_sound GateWorld.fs (Some GateWorld.config)
           GateWorld.startup GateWorld.in_vault (Str.lit "{}")).
  reflexivity.
Defined.

(** X2: on a path that is its own canonical form, the patched command
    answers as the command before the patch did, except that it denies a
    path that exists and that no rule covers. *)
Theorem patched_read_on_canonical_path
    (fs : FileSystem) (load_default : option Config) (state : AppState)
    (path : Path.t) :
  canonicalize fs path = Some path →
  read_file_content fs load_default state path
  = if path_exists fs path && negb (allowed fs load_default state path)
    then Err (AccessDenied path)
    else Original.read_file_content fs path.
Proof.
  intros Hcanon. unfold read_file_content, Original.read_file_content.
  rewrite Hcanon. destruct (path_exists fs path); [|done]. simpl.
  by destruct (allowed fs load_default state path).
Qed.

Lemma patched_read_on_canonical_path_witness :
  read_file_content GateWorld.fs (Some GateWorld.config) GateWorld.startup
    GateWorld.big
  = if path_exists GateWorld.fs GateWorld.big
       && negb (allowed GateWorld.fs (Some GateWorld.config)
                  GateWorld.startup GateWorld.big)
    then Err (AccessDenied GateWorld.big)
    else Original.read_file_content GateWorld.fs GateWorld.big.
Proof.
  apply (patched_read_on_canonical_path GateWorld.fs
           (Some GateWorld.config) GateWorld.startup GateWorld.big).
  reflexivity.
Defined.

Lemma starts_with_sibling (base rest : Path.t) (name suffix : Str.t)
    (x : Str.char) :
  Path.starts_with
    (base ++ Path.Normal (name ++ x :: suffix) :: rest)
    (base ++ [Path.Normal name]) = false.
Proof.
  induction base as [|b base IH]; simpl.
  - rewrite bool_decide_eq_false_2; [done|].
    intros [= Heq]. apply (f_equal length) in Heq.
    rewrite length_app in Heq. simpl in Heq. lia.
  - rewrite IH. apply andb_false_r.
Qed.

Lemma join_snoc_prefix (base rest : Path.t) (c c' : Path.Component) :
  Path.component_str c `prefix_of` Path.component_str c' →
  Path.join (base ++ [c]) `prefix_of` Path.join (base ++ c' :: rest).
Proof.
  intros Hc. induction base as [|b base IH].
  - simpl. destruct rest; [done|]. by apply prefix_app_r.
  - cbn [app]. 
    assert (∀ l, l ≠ [] →
              Path.join (b :: l) = Path.component_str b ++ Path.slash :: Path.join l)
      as Hcons by (by intros [|? ?]).
    rewrite !Hcons by (by destruct base).
    apply prefix_app, prefix_cons, IH.
Qed.

(** X3: containment is by whole components.  A directory beside the vault
    root whose name merely extends the root's name is not under it, although
    the string of the root starts the string of the path. *)
Theorem sibling_directory_not_under_root
    (fs : FileSystem) (config : Config) (base rest : Path.t)
    (name suffix : Str.t) (x : Str.char) :
  canonicalize fs (vault_path config) = Some (base ++ [Path.Normal name]) →
  export_path config = None →
  allowed_by_config fs (Some config)
    (base ++ Path.Normal (name ++ x :: suffix) :: rest) = false
  ∧ Path.to_string_lossy (base ++ [Path.Normal name])
    `prefix_of`
    Path.to_string_lossy (base ++ Path.Normal (name ++ x :: suffix) :: rest).
Proof.
  intros Hvault Hexport. split.
  - unfold allowed_by_config. rewrite Hvault, Hexport, starts_with_sibling.
    done.
  - assert (∀ p c q, Path.to_string_lossy (p ++ Path.Normal c :: q)
                     = Path.join (p ++ Path.Normal c :: q)) as Hstr.
    { intros p c q. by destruct p as [|[] [|? ?]]. }
    rewrite !Hstr. apply join_snoc_prefix. simpl. by apply prefix_app_r.
Qed.

Lemma sibling_directory_not_under_root_witness :
  allowed_by_config GateWorld.fs (Some GateWorld.config)
    ([Path.RootDir] ++ Path.Normal (Str.lit "vault" ++ 50%N :: [])
                       :: [Path.Normal (Str.lit "a.json")]) = false
  ∧ Path.to_string_lossy ([Path.RootDir] ++ [Path.Normal (Str.lit "vault")])
    `prefix_of`
    Path.to_string_lossy
      ([Path.RootDir] ++ Path.Normal (Str.lit "vault" ++ 50%N :: [])
                         :: [Path.Normal (Str.lit "a.json")]).
Proof.
  apply (sibling_directory_not_under_root GateWorld.fs GateWorld.config
           [Path.RootDir] [Path.Normal (Str.lit "a.json")]
           (Str.lit "vault") [] 50%N); reflexivity.
Defined.

End GateFurther.

Section ScanFurther.

Import Commands.

Variable fs : FileSystem.

Lemma scan_sessions_poisoned {E} (state : AppState)
    (scanned : Result (list SessionInfo) E) :
  poisoned (known_paths (scan_sessions fs state scanned).2)
  = poisoned (known_paths state).
Proof.
  destruct scanned as [sessions|e]; [|done]. unfold scan_sessions, lock.
  simpl. by destruct (poisoned (known_paths state)) eqn:Hp.
Qed.

Lemma scan_all_poisoned {E} (state : AppState)
    (scans : list (Result (list SessionInfo) E)) :
  poisoned (known_paths (scan_all fs state scans))
  = poisoned (known_paths state).
Proof.
  unfold scan_all. revert state.
  induction scans as [|scanned scans IH]; intros state; [done|].
  simpl. by rewrite IH, scan_sessions_poisoned.
Qed.

Lemma scan_all_app {E} (state : AppState)
    (scans1 scans2 : list (Result (list SessionInfo) E)) :
  scan_all fs state (scans1 ++ scans2)
  = scan_all fs (scan_all fs state scans1) scans2.
Proof. unfold scan_all. apply foldl_app. Qed.

Lemma scan_all_cons {E} (state : AppState)
    (scanned : Result (list SessionInfo) E)
    (scans : list (Result (list SessionInfo) E)) :
  scan_all fs state (scanned :: scans)
  = scan_all fs (scan_sessions fs state scanned).2 scans.
Proof. done. Qed.

Lemma scan_all_failures {E} (state : AppState) (errors : list E) :
  scan_all fs state (Err <$> errors) = state.
Proof. unfold scan_all. by induction errors. Qed.

Lemma insert_loop_size (sessions : list SessionInfo) (acc : gset Str.t) :
  (size
     (foldl
        (fun known session =>
           match canonicalize fs (path session) with
           | Some canon => {[ Path.to_string_lossy canon ]} ∪ known
           | None => known
           end)
        acc sessions)
   ≤ size acc + length sessions)%nat.
Proof.
  revert acc. induction sessions as [|x xs IH]; intros acc; simpl; [lia|].
  etrans; [apply IH|].
  destruct (canonicalize fs (path x)) as [canon|]; [|lia].
  rewrite size_union_alt, size_singleton.
  assert (acc ∖ {[Path.to_string_lossy canon]} ⊆ acc) as Hsub by set_solver.
  apply subseteq_size in Hsub. lia.
Qed.

(** X4: a completed scan that found no session empties the set: what the
    gate then allows is what the two root rules allow. *)
Theorem empty_scan_revokes_known_paths
    (load_default : option Config) (state : AppState)
    (canonical_path : Path.t) :
  poisoned (known_paths state) = false →
  allowed fs load_default
    (@scan_sessions Str.t fs state (Ok [])).2 canonical_path
  = allowed_by_config fs load_default canonical_path.
Proof.
  intros Hp. unfold allowed, scan_sessions, lock. simpl. rewrite Hp. simpl.
  destruct (allowed_by_config fs load_default canonical_path); [done|].
  simpl. apply bool_decide_eq_false_2. unfold refresh. simpl. set_solver.
Qed.

(** X5: the scan reports as [total] the number of its sessions, and the
    known-paths set it leaves has at most that many members (fewer when a
    path does not canonicalize or two sessions share a file). *)
Theorem known_paths_size_bound
    (state : AppState) (sessions : list SessionInfo) :
  poisoned (known_paths state) = false →
  ∃ result,
    (@scan_sessions Str.t fs state (Ok sessions)).1 = Ok result
    ∧ total result = length sessions
    ∧ (size (data (known_paths
                     (@scan_sessions Str.t fs state (Ok sessions)).2))
       ≤ total result)%nat.
Proof.
  intros Hp. eexists. split; [done|]. split; [done|].
  unfold scan_sessions, lock. simpl. rewrite Hp. simpl.
  unfold refresh. etrans; [apply insert_loop_size|].
  rewrite size_empty. lia.
Qed.

(** X6: scanning two lists of sessions at once makes known exactly the
    paths that scanning either of them makes known. *)
Theorem scan_of_concatenation
    (state : AppState) (sessions1 sessions2 : list SessionInfo)
    (canonical_path : Path.t) :
  poisoned (known_paths state) = false →
  in_known_paths
    (@scan_sessions Str.t fs state (Ok (sessions1 ++ sessions2))).2
    canonical_path
  ↔ in_known_paths (@scan_sessions Str.t fs state (Ok sessions1)).2
      canonical_path
    ∨ in_known_paths (@scan_sessions Str.t fs state (Ok sessions2)).2
        canonical_path.
Proof.
  intros Hp.
  assert (∀ sessions,
            in_known_paths (@scan_sessions Str.t fs state (Ok sessions)).2
              canonical_path
            ↔ scanned_path fs sessions (Path.to_string_lossy canonical_path))
    as Hscan.
  { intros sessions. unfold in_known_paths, scan_sessions, lock. simpl.
    rewrite Hp. simpl. split.
    - intros (known & [= <-] & Hin). by apply elem_of_refresh in Hin.
    - intros Hin. eexists. split; [done|]. by apply elem_of_refresh. }
  rewrite !Hscan. unfold scanned_path. split.
  - intros (session & canon & Hin & Hc & Hs).
    apply elem_of_app in Hin as [Hin|Hin]; [left|right];
      by exists session, canon.
  - intros [(session & canon & Hin & Hc & Hs)
           |(session & canon & Hin & Hc & Hs)];
      exists session, canon; (split; [|done]); apply elem_of_app; auto.
Qed.

(** X7: along any run of scans from a state whose lock is sound, the lock
    stays sound and the known-paths set is the one of the last scan that
    succeeded: earlier scans leave no trace and later failed scans change
    nothing. *)
Theorem last_completed_scan_decides
    (state : AppState)
    (before : list (Result (list SessionInfo) Str.t))
    (sessions : list SessionInfo) (errors : list Str.t) :
  poisoned (known_paths state) = false →
  known_paths
    (scan_all fs state (before ++ Ok sessions :: (Err <$> errors)))
  = {| poisoned := false; data := refresh fs sessions ∅ |}.
Proof.
  intros Hp. rewrite scan_all_app, scan_all_cons, scan_all_failures.
  pose proof (scan_all_poisoned state before) as Hq. rewrite Hp in Hq.
  unfold scan_sessions, lock. simpl. by rewrite Hq.
Qed.

End ScanFurther.

Section ScanFurtherWitnesses.

Import Commands.

Lemma empty_scan_revokes_known_paths_witness :
  allowed GateWorld.fs (Some GateWorld.config)
    (@scan_sessions Str.t GateWorld.fs
       {| known_paths :=
            {| poisoned := false;
               data := {[ Path.to_string_lossy GateWorld.chat ]} |} |}
       (Ok [])).2 GateWorld.chat
  = allowed_by_config GateWorld.fs (Some GateWorld.config) GateWorld.chat.
Proof.
  apply (empty_scan_revokes_known_paths GateWorld.fs (Some GateWorld.config)
           {| known_paths :=
                {| poisoned := false;
                   data := {[ Path.to_string_lossy GateWorld.chat ]} |} |}
           GateWorld.chat).
  reflexivity.
Defined.

Lemma known_paths_size_bound_witness :
  ∃ result,
    (@scan_sessions Str.t GateWorld.fs GateWorld.startup
       (Ok [ {| path := GateWorld.link |}; {| path := GateWorld.chat |} ])).1
    = Ok result
    ∧ total result
      = length [ {| path := GateWorld.link |}; {| path := GateWorld.chat |} ]
    ∧ (size (data (known_paths
                     (@scan_sessions Str.t GateWorld.fs GateWorld.startup
                        (Ok [ {| path := GateWorld.link |};
                              {| path := GateWorld.chat |} ])).2))
       ≤ total result)%nat.
Proof.
  apply (known_paths_size_bound GateWorld.fs GateWorld.startup
           [ {| path := GateWorld.link |}; {| path := GateWorld.chat |} ]).
  reflexivity.
Defined.

Lemma scan_of_concatenation_witness :
  in_known_paths
    (@scan_sessions Str.t GateWorld.fs GateWorld.startup
       (Ok ([ {| path := GateWorld.link |} ]
            ++ [ {| path := GateWorld.big |} ]))).2 GateWorld.big
  ↔ in_known_paths
      (@scan_sessions Str.t GateWorld.fs GateWorld.startup
         (Ok [ {| path := GateWorld.link |} ])).2 GateWorld.big
    ∨ in_known_paths
        (@scan_sessions Str.t GateWorld.fs GateWorld.startup
           (Ok [ {| path := GateWorld.big |} ])).2 GateWorld.big.
Proof.
  apply (scan_of_concatenation GateWorld.fs GateWorld.startup
           [ {| path := GateWorld.link |} ] [ {| path := GateWorld.big |} ]
           GateWorld.big).
  reflexivity.
Defined.

Lemma last_completed_scan_decides_witness :
  known_paths
    (scan_all GateWorld.fs GateWorld.startup
       ([ Ok [ {| path := GateWorld.big |} ] ]
        ++ Ok [ {| path := GateWorld.link |} ]
           :: (Err <$> [ Str.lit "store" ])))
  = {| poisoned := false;
       data := refresh GateWorld.fs [ {| path := GateWorld.link |} ] ∅ |}.
Proof.
  apply (last_completed_scan_decides GateWorld.fs GateWorld.startup
           [ Ok [ {| path := GateWorld.big |} ] ]
           [ {| path := GateWorld.link |} ] [ Str.lit "store" ]).
  reflexivity.
Defined.

End ScanFurtherWitnesses.

(** * Further properties of the extractor *)

(** ** Which files are line-delimited *)

Lemma rsplit_dot_inv (s : Str.t) :
  match Path.rsplit_dot s with
  | (Some before, after) =>
      s = before ++ Path.dot :: after ∧ Path.dot ∉ after
  | (None, after) => s = after ∧ Path.dot ∉ s
  end.
Proof.
  induction s as [|c s IH]; simpl.
  - split; [done | apply not_elem_of_nil].
  - destruct (Path.rsplit_dot s) as [[before|] after].
    + destruct IH as [-> Hno]. done.
    + destruct IH as [<- Hno]. destruct (c =? Path.dot)%N eqn:Hc.
      * apply N.eqb_eq in Hc as ->. done.
      * apply N.eqb_neq in Hc. split; [done|].
        by apply not_elem_of_cons.
Qed.

Lemma rsplit_dot_no_dot (s : Str.t) :
  Path.dot ∉ s → Path.rsplit_dot s = (None, s).
Proof.
  intros Hno. pose proof (rsplit_dot_inv s) as H.
  destruct (Path.rsplit_dot s) as [[before|] after].
  - destruct H as [-> _]. exfalso. apply Hno. set_solver.
  - by destruct H as [<- _].
Qed.

Lemma rsplit_dot_last_dot (before after : Str.t) :
  Path.dot ∉ after →
  Path.rsplit_dot (before ++ Path.dot :: after) = (Some before, after).
Proof.
  intros Hno. induction before as [|c before IH]; simpl.
  - by rewrite (rsplit_dot_no_dot after Hno).
  - by rewrite IH.
Qed.

(** X8: a file is read as line-delimited exactly when its name is a stem
    that is not empty followed by [.jsonl]; that stem is then what stands in
    for a missing session id.  A file named [.jsonl] is read as a single
    document. *)
Theorem is_jsonl_file_name (path : Path.t) :
  (is_jsonl path = true
   ↔ ∃ stem, stem ≠ [] ∧ Path.file_name path = Some (stem ++ Str.lit ".jsonl"))
  ∧ (∀ stem, stem ≠ [] →
             Path.file_name path = Some (stem ++ Str.lit ".jsonl") →
             file_stem_or_default path = stem)
  ∧ (Path.file_name path = Some (Str.lit ".jsonl") → is_jsonl path = false).
Proof.
  assert (Hdot : Path.dot ∉ Str.lit "jsonl").
  { intros Hin. by repeat (apply elem_of_cons in Hin as [Hin|Hin];
                            [done|]); apply elem_of_nil in Hin. }
  assert (Hsplit : ∀ stem, stem ≠ [] →
            Path.rsplit_file_at_dot (stem ++ Str.lit ".jsonl")
            = (Some stem, Some (Str.lit "jsonl"))).
  { intros stem Hne. unfold Path.rsplit_file_at_dot.
    change (Str.lit ".jsonl") with (Path.dot :: Str.lit "jsonl").
    rewrite (rsplit_dot_last_dot stem _ Hdot).
    unfold Str.eqb. rewrite bool_decide_eq_false_2.
    - by destruct stem.
    - intros Heq. apply (f_equal length) in Heq.
      rewrite length_app in Heq. simpl in Heq. lia. }
  unfold is_jsonl, file_stem_or_default, Path.extension, Path.file_stem.
  split; [split|split].
  - destruct (Path.file_name path) as [name|]; [|done].
    unfold Path.rsplit_file_at_dot.
    destruct (Str.eqb name (Str.lit "..")); [done|].
    pose proof (rsplit_dot_inv name) as Hinv.
    destruct (Path.rsplit_dot name) as [[[|b before]|] after]; try done.
    destruct Hinv as [-> _]. unfold Str.eqb. rewrite bool_decide_eq_true.
    intros ->. by exists (b :: before).
  - intros (stem & Hne & ->). rewrite (Hsplit stem Hne).
    unfold Str.eqb. by apply bool_decide_eq_true.
  - intros stem Hne ->. by rewrite (Hsplit stem Hne).
  - by intros ->.
Qed.

(** ** What the line-delimited branch reads *)

Section ExtractorFurther.

Variable representable : Z -> bool.

(** X9: of a line-delimited file only the first 21 lines are read (the
    header and the 20 lines after it): two files that share them give the
    same result. *)
Theorem jsonl_reads_21_lines
    (fs fs' : FileSystem) (path : Path.t) (workspace : Str.t)
    (file file' : File) :
  is_jsonl path = true →
  open fs path = Some file →
  open fs' path = Some file' →
  take 21 (lines file) = take 21 (lines file') →
  metadata_len fs path = metadata_len fs' path →
  extract_quick_metadata representable fs path workspace
  = extract_quick_metadata representable fs' path workspace.
Proof.
  intros Hjsonl Hopen Hopen' Hlines Hlen.
  assert (header_line file = header_line file') as Hheader.
  { unfold header_line.
    destruct (lines file) as [|l ls], (lines file') as [|l' ls'];
      simpl in Hlines; try done. by injection Hlines as -> _. }
  assert (take 20 (drop 1 (lines file)) = take 20 (drop 1 (lines file')))
    as Hwindow.
  { rewrite !take_drop_commute. simpl. by rewrite Hlines. }
  assert (read_header fs path = read_header fs' path) as Hread.
  { unfold read_header. rewrite Hjsonl, Hopen, Hopen'.
    cbn [mbind option_bind]. by rewrite Hheader. }
  assert (∀ h, derive_title fs path h = derive_title fs' path h) as Htitle.
  { intros h. unfold derive_title, jsonl_fallback.
    rewrite Hjsonl, Hopen, Hopen'. cbn [mbind option_bind negb].
    by rewrite Hwindow. }
  unfold extract_quick_metadata. rewrite Hread, Hlen.
  destruct (read_header fs' path) as [h|]; [|done]. simpl.
  by rewrite Htitle.
Qed.

End ExtractorFurther.

(** ** The two versions, field by field *)

(** The metadata without its title. *)
Definition without_title (m : SessionMetadata) : SessionMetadata :=
  {| id := id m; source := source m; title := None;
     created_at := created_at m; vault_path := vault_path m;
     original_path := original_path m; file_size := file_size m;
     workspace_name := workspace_name m; ide_origin := ide_origin m |}.

(** The keys [QuickMetadata] reads. *)
Definition recognised_keys : list string :=
  ["sessionId"; "creationDate"; "customTitle"; "requests"]%string.

Lemma field_i64_get (key : string) (members : list (Str.t * Json.Value))
    (r : option Z) :
  De.field De.i64 key members = Some r →
  r = Json.map_get (Str.lit key) members ≫= Json.as_i64.
Proof.
  unfold De.field. rewrite map_get_occurrences.
  destruct (De.occurrences key members) as [|v [|w l]]; simpl;
    [by intros [= <-] | | done].
  destruct v as [| |[n|n|b]| | |]; simpl; intros; try by simplify_eq.
  destruct (n <=? Json.i64_MAX); simpl in *; by simplify_eq.
Qed.

Lemma field_duplicate {A} (de : Json.Value → option A) (key : string)
    (members : list (Str.t * Json.Value)) :
  at_most_once key members = false → De.field de key members = None.
Proof.
  unfold at_most_once, De.field. rewrite bool_decide_eq_false.
  destruct (De.occurrences key members) as [|v [|w l]]; simpl; [lia..|done].
Qed.

Lemma occurrences_other (key : string) (k : Str.t) (v : Json.Value)
    (before after : list (Str.t * Json.Value)) :
  k ≠ Str.lit key →
  De.occurrences key (before ++ (k, v) :: after)
  = De.occurrences key (before ++ after).
Proof.
  intros Hk. unfold De.occurrences.
  rewrite !filter_app, filter_cons. simpl. by rewrite decide_False.
Qed.

Section VersionsFurther.

Variable representable : Z -> bool.

Local Arguments Str.lit : simpl never.

(** X10: on a line-delimited file the two versions succeed together and
    return the same metadata, the title apart. *)
Theorem jsonl_versions_differ_in_title_only
    (fs : FileSystem) (path : Path.t) (workspace : Str.t) :
  is_jsonl path = true →
  without_title <$> extract_quick_metadata representable fs path workspace
  = without_title
      <$> extract_quick_metadata_old representable fs path workspace.
Proof.
  intros Hjsonl.
  unfold extract_quick_metadata, extract_quick_metadata_old, read_header,
    read_json_old.
  rewrite Hjsonl. destruct (open fs path) as [file|]; [|done]. simpl.
  destruct (header_line file) as [wrapper|]; [|done]. simpl.
  by destruct (Json.get "v" wrapper).
Qed.

(** X11: on a single-document file that the full parser accepts (its
    [document] is read) and whose document is an object, whenever the
    rewritten method returns metadata the old one returns the same
    metadata, the title apart; and the same title too when the document
    has a string [customTitle]. *)
Theorem json_object_accepted
    (fs : FileSystem) (path : Path.t) (workspace : Str.t) (file : File)
    (members : list (Str.t * Json.Value)) (m : SessionMetadata) :
  is_jsonl path = false →
  open fs path = Some file →
  document file = Some (Json.Object members) →
  extract_quick_metadata representable fs path workspace = Some m →
  without_title
    <$> extract_quick_metadata_old representable fs path workspace
  = Some (without_title m)
  ∧ (∀ t, Json.get "customTitle" (Json.Object members) ≫= Json.as_str
          = Some t →
          title m = Some t
          ∧ title <$> extract_quick_metadata_old representable fs path
                        workspace
            = Some (Some t)).
Proof.
  intros Hjsonl Hopen Hdoc.
  unfold extract_quick_metadata, extract_quick_metadata_old, read_header,
    read_json_old, derive_title, derive_title_old, reader_document.
  rewrite Hjsonl, Hopen. cbn [mbind option_bind]. rewrite Hdoc.
  cbn [mbind option_bind De.QuickMetadata_de].
  destruct (De.field De.string_ "sessionId" members) as [sid|] eqn:Hsid;
    [|done].
  destruct (De.field De.i64 "creationDate" members) as [date|] eqn:Hdate;
    [|done].
  destruct (De.field De.string_ "customTitle" members) as [ct|] eqn:Hct;
    [|done].
  destruct (De.field De.FirstRequestOnly_de "requests" members) as [reqs|];
    [|done].
  apply field_string_get in Hsid, Hct. apply field_i64_get in Hdate.
  cbn. intros [= <-]. cbn. rewrite <- Hsid, <- Hdate. split; [done|].
  intros t Ht. rewrite <- Hct in Ht. rewrite Ht. by rewrite <- Hct, Ht.
Qed.

(** X12: a single-document file that gives one of the four keys twice is
    skipped by the rewritten method; the old one kept the last value and
    returned metadata. *)
Theorem duplicate_key_rejected
    (fs : FileSystem) (path : Path.t) (workspace : Str.t) (file : File)
    (members : list (Str.t * Json.Value)) (key : string) :
  is_jsonl path = false →
  open fs path = Some file →
  document file = Some (Json.Object members) →
  key ∈ recognised_keys →
  at_most_once key members = false →
  extract_quick_metadata representable fs path workspace = None
  ∧ is_Some (extract_quick_metadata_old representable fs path workspace).
Proof.
  intros Hjsonl Hopen Hdoc Hkey Hdup. split.
  - unfold extract_quick_metadata, read_header, reader_document.
    rewrite Hjsonl, Hopen. cbn [mbind option_bind]. rewrite Hdoc.
    cbn [mbind option_bind De.QuickMetadata_de].
    unfold recognised_keys in Hkey.
    repeat (apply elem_of_cons in Hkey as [-> | Hkey]);
      [..|by apply elem_of_nil in Hkey];
      rewrite ?(field_duplicate _ _ _ Hdup);
      repeat (match goal with
              | |- context [De.field ?de ?k members] =>
                  destruct (De.field de k members); cbn [mbind option_bind]
              end);
      try done; by rewrite (field_duplicate _ _ _ Hdup).
  - unfold extract_quick_metadata_old, read_json_old.
    rewrite Hjsonl, Hopen. cbn [mbind option_bind]. rewrite Hdoc. by eexists.
Qed.

(** X16: a member under a key that [QuickMetadata] does not read, wherever
    it stands in the document, does not change what is read. *)
Theorem unknown_key_ignored
    (k : Str.t) (v : Json.Value) (before after : list (Str.t * Json.Value)) :
  k ∉ Str.lit <$> recognised_keys →
  De.QuickMetadata_de (Json.Object (before ++ (k, v) :: after))
  = De.QuickMetadata_de (Json.Object (before ++ after)).
Proof.
  intros Hk. unfold recognised_keys in Hk. rewrite !fmap_cons in Hk.
  repeat (apply not_elem_of_cons in Hk as [? Hk]).
  unfold De.QuickMetadata_de, De.field.
  by rewrite !occurrences_other.
Qed.

End VersionsFurther.

(** ** Titles and user texts, further *)

Lemma len_ascii (s : Str.t) :
  Forall (fun c => (c < 128)%N) s → Str.len s = Str.chars_count s.
Proof.
  unfold Str.chars_count. induction 1 as [|c s Hc _ IH]; [done|].
  simpl Str.len. rewrite IH. unfold Str.len_utf8.
  apply N.ltb_lt in Hc as ->. simpl length. lia.
Qed.

Lemma truncate_title_count (s : Str.t) :
  Str.chars_take 60 (truncate_title s) = Str.chars_take 60 s
  ∧ Str.chars_count (truncate_title s)
    = if 60 <? Str.chars_count s then 63 else Str.chars_count s.
Proof.
  destruct (60 <? Str.chars_count s) eqn:Hlt.
  - apply Z.ltb_lt in Hlt.
    destruct (truncate_title_long s Hlt) as (Heq & Hcount & H63).
    split; [|done]. rewrite Heq. unfold Str.chars_take, Str.chars_count in *.
    rewrite take_app_le by (rewrite length_take; lia).
    rewrite take_take. f_equal.
  - apply Z.ltb_ge in Hlt. by rewrite truncate_title_short.
Qed.

Section TitlesFurther.

Variable representable : Z -> bool.

(** X13: a title that does not come from [customTitle] has at most 63
    characters; it keeps the first 60 characters of the text it comes from
    and has 63 characters as soon as that text has more than 60 (so more
    than the text itself when the text has 61 or 62). *)
Theorem fallback_title_bound
    (fs : FileSystem) (path : Path.t) (workspace : Str.t)
    (m : SessionMetadata) (h : Header) (t : Str.t) :
  extract_quick_metadata representable fs path workspace = Some m →
  read_header fs path = Some h →
  h_custom_title h = None →
  title m = Some t →
  Str.chars_count t <= 63
  ∧ ∃ s, fallback_text fs path h = Some s
         ∧ Str.chars_take 60 t = Str.chars_take 60 s
         ∧ Str.chars_count t
           = if 60 <? Str.chars_count s then 63 else Str.chars_count s.
Proof.
  intros Hm Hh Hnone Ht.
  rewrite (extract_quick_metadata_header _ _ _ _ h Hh) in Hm.
  injection Hm as <-. cbn [title] in Ht.
  rewrite (derive_title_fallback _ _ _ Hnone) in Ht.
  destruct (fallback_text fs path h) as [s|]; [|done].
  injection Ht as <-. destruct (truncate_title_count s) as [Htake Hcount].
  split.
  - rewrite Hcount. destruct (60 <? Str.chars_count s) eqn:Hlt; [lia|].
    apply Z.ltb_ge in Hlt. lia.
  - by exists s.
Qed.

(** X15: a [creationDate] that is not a date for [chrono] does not fail
    the extraction: the metadata is returned without a timestamp. *)
Theorem created_at_out_of_range
    (fs : FileSystem) (path : Path.t) (workspace : Str.t) (h : Header)
    (ts : Z) :
  read_header fs path = Some h →
  h_creation_date h = Some ts →
  representable ts = false →
  ∃ m, extract_quick_metadata representable fs path workspace = Some m
       ∧ created_at m = None.
Proof.
  intros Hh Hdate Hrange. eexists. split.
  - by apply extract_quick_metadata_header.
  - cbn [created_at]. rewrite Hdate. simpl. unfold timestamp_millis_opt.
    by rewrite Hrange.
Qed.

End TitlesFurther.

(** X14: the threshold on a user entry.  A text of more than 5 characters
    is always taken, a text of at most 5 bytes never is, and for an ASCII
    text the two tests are the same one. *)
Theorem user_text_threshold (obj : Json.Value) (text : Str.t) :
  Json.get "kind" obj ≫= Json.as_i64 = Some 1 →
  Json.get "v" obj ≫= Json.as_str = Some text →
  (5 < Str.chars_count text →
   user_message_title (LineOk (Some obj)) = Some (truncate_title text))
  ∧ (Str.len text <= 5 → user_message_title (LineOk (Some obj)) = None)
  ∧ (Forall (fun c => (c < 128)%N) text →
     (is_Some (user_message_title (LineOk (Some obj)))
      ↔ 5 < Str.chars_count text)).
Proof.
  intros Hkind Hv. rewrite user_message_title_text. unfold user_text.
  rewrite Hkind, Hv, bool_decide_eq_true_2 by done.
  pose proof (chars_count_le_len text) as Hle.
  split; [|split].
  - intros Hlong. by rewrite (proj2 (Z.ltb_lt 5 (Str.len text))) by lia.
  - intros Hshort. by rewrite (proj2 (Z.ltb_ge 5 (Str.len text))) by lia.
  - intros Hascii. rewrite (len_ascii text Hascii).
    destruct (5 <? Str.chars_count text) eqn:Hlt; simpl.
    + apply Z.ltb_lt in Hlt. split; [done | by eexists].
    + apply Z.ltb_ge in Hlt. split; [by intros [? ?] | lia].
Qed.

(** * Properties of the patch scripts *)

Section Scripts.

Import Py.

Lemma replace_from_absent (old new s : Str.t) :
  contains old s = false → replace_from old new s 0 = s.
Proof.
  induction s as [|c s IH]; [done|].
  cbn [contains]. intros [Hhere Hlater]%orb_false_iff.
  cbn [replace_from]. rewrite Hhere, IH by done. done.
Qed.

(** [str.replace] leaves a text in which the pattern does not occur as it
    is. *)
Lemma replace_absent (s old new : Str.t) :
  contains old s = false → replace s old new = s.
Proof.
  intros Habs. destruct old as [|a old].
  - by destruct s.
  - by apply replace_from_absent.
Qed.

(** X17: the not-found ending of [replace_file_content].  The call ends
    with the not-found message exactly when the file is read and the search
    text is not in it, and it has then changed no file; the call ends with
    the success message only when the search text is in the file; and
    however it ends, no file but [path] is changed. *)
Theorem replace_file_content_not_found
    (fs : gmap Str.t File) (path search_str replace_str : Str.t) :
  ((replace_file_content fs path search_str replace_str).1 = SearchNotFound
   ↔ ∃ file text,
       fs !! path = Some file
       ∧ content file = Some text
       ∧ contains search_str text = false)
  ∧ ((replace_file_content fs path search_str replace_str).1
     = SearchNotFound →
     (replace_file_content fs path search_str replace_str).2 = fs)
  ∧ ((replace_file_content fs path search_str replace_str).1 = Modified →
     ∃ file text,
       fs !! path = Some file
       ∧ content file = Some text
       ∧ contains search_str text = true)
  ∧ ∀ other, other ≠ path →
             (replace_file_content fs path search_str replace_str).2 !! other
             = fs !! other.
Proof.
  unfold replace_file_content.
  destruct (fs !! path) as [file|] eqn:Hfile.
  2: { repeat split; try done. by intros (? & ? & ? & _). }
  destruct (content file) as [text|] eqn:Htext.
  2: { repeat split; try done. intros (f & t & [= <-] & Ht & _). congruence. }
  destruct (contains search_str text) eqn:Hin; simpl.
  - destruct (writable file); simpl.
    + split; [split; [done|]|].
      * intros (f & t & [= <-] & Ht & Hno). congruence.
      * split; [done|]. split; [intros _; by exists file, text|].
        intros other Hne. by rewrite lookup_insert_ne.
    + split; [split; [done|]|].
      * intros (f & t & [= <-] & Ht & Hno). congruence.
      * done.
  - split; [split; [intros _; by exists file, text | done]|]. done.
Qed.

(** X19: [update_commands.py] is not all-or-nothing.  When the first
    search text is found and the second one is not, the script stops with
    the not-found message and leaves the file with the first replacement
    made. *)
Theorem update_commands_partial
    (fs : gmap Str.t File) (path : Str.t) (file : File) (text : Str.t)
    (search1 replace1 search2 replace2 : Str.t) :
  fs !! path = Some file →
  content file = Some text →
  writable file = true →
  contains search1 text = true →
  contains search2 (replace text search1 replace1) = false →
  update_commands fs path search1 replace1 search2 replace2
  = (SearchNotFound,
     <[path := {| content := Some (replace text search1 replace1);
                  writable := true |}]> fs).
Proof.
  intros Hfile Htext Hw Hin1 Hin2.
  unfold update_commands, replace_file_content.
  rewrite Hfile, Htext, Hin1, Hw. simpl.
  rewrite lookup_insert_eq. simpl. by rewrite Hin2.
Qed.

End Scripts.

(** * Cases for the further properties *)

Module MoreSamples.

Import Json Samples.

(** A header, twenty short user entries, then what [tail] holds. *)
Definition long_file (tail : list Line) : list Line :=
  header (Object []) :: replicate 20 (user (Str.lit "hi")) ++ tail.

Definition beyond : File :=
  {| lines := long_file [user (Str.lit "a question beyond the window")];
     document := None; skimmed := None |}.

Definition torn : File :=
  {| lines := long_file [LineErr; LineErr]; document := None;
     skimmed := None |}.

(** [{"sessionId":"a","sessionId":"b"}] *)
Definition twice : list (Str.t * Value) :=
  [key "sessionId" (String (Str.lit "a"));
   key "sessionId" (String (Str.lit "b"))].

Definition titled_members : list (Str.t * Value) :=
  [key "sessionId" (String (Str.lit "s1"));
   key "creationDate" (Num (PosInt 1700000000000));
   key "customTitle" (String (Str.lit "Hello"))].

Definition first_request_80_header : Header :=
  {| h_session_id := None; h_creation_date := None; h_custom_title := None;
     h_first_message_text := Some (replicate 80 98%N) |}.

(** Dates before the year 2000 only. *)
Definition before_2000 (ts : Z) : bool := ts <? 946684800000.

Definition question : Value :=
  Object [key "kind" (Num (PosInt 1));
          key "v" (String (Str.lit "How do I sort a list?"))].

(** One source file. *)
Definition sources (text : string) : gmap Str.t Py.File :=
  {[ Str.lit "commands.rs" :=
       {| Py.content := Some (Str.lit text); Py.writable := true |} ]}.

End MoreSamples.

Section FurtherWitnesses.

Import Samples MoreSamples.

Lemma jsonl_reads_21_lines_witness :
  extract_quick_metadata any_date (one_file jsonl_path beyond (Some 9))
    jsonl_path ws
  = extract_quick_metadata any_date (one_file jsonl_path torn (Some 9))
      jsonl_path ws.
Proof.
  apply (jsonl_reads_21_lines any_date (one_file jsonl_path beyond (Some 9))
           (one_file jsonl_path torn (Some 9)) jsonl_path ws beyond torn);
    reflexivity.
Defined.

Lemma jsonl_versions_differ_in_title_only_witness :
  without_title
    <$> extract_quick_metadata any_date
          (jsonl_file header_with_requests (Some 80)) jsonl_path ws
  = without_title
      <$> extract_quick_metadata_old any_date
            (jsonl_file header_with_requests (Some 80)) jsonl_path ws.
Proof.
  apply (jsonl_versions_differ_in_title_only any_date
           (jsonl_file header_with_requests (Some 80)) jsonl_path ws).
  reflexivity.
Defined.

Lemma json_object_accepted_witness :
  without_title
    <$> extract_quick_metadata_old any_date (json_file titled (Some 70))
          json_path ws
  = Some (without_title titled_metadata)
  ∧ (∀ t, Json.get "customTitle" (Json.Object titled_members)
          ≫= Json.as_str = Some t →
          title titled_metadata = Some t
          ∧ title <$> extract_quick_metadata_old any_date
                        (json_file titled (Some 70)) json_path ws
            = Some (Some t)).
Proof.
  apply (json_object_accepted any_date (json_file titled (Some 70))
           json_path ws
           {| lines := []; document := Some titled; skimmed := None |}
           titled_members titled_metadata); reflexivity.
Defined.

Lemma duplicate_key_rejected_witness :
  extract_quick_metadata any_date
    (json_file (Json.Object twice) (Some 40)) json_path ws = None
  ∧ is_Some (extract_quick_metadata_old any_date
               (json_file (Json.Object twice) (Some 40)) json_path ws).
Proof.
  apply (duplicate_key_rejected any_date
           (json_file (Json.Object twice) (Some 40)) json_path ws
           {| lines := []; document := Some (Json.Object twice);
              skimmed := None |}
           twice "sessionId"); try reflexivity.
  apply list_elem_of_here.
Defined.

Lemma unknown_key_ignored_witness :
  De.QuickMetadata_de
    (Json.Object ([] ++ (Str.lit "version", Json.Num (Json.PosInt 3))
                        :: titled_members))
  = De.QuickMetadata_de (Json.Object ([] ++ titled_members)).
Proof.
  apply (unknown_key_ignored (Str.lit "version") (Json.Num (Json.PosInt 3))
           [] titled_members).
  apply (bool_decide_unpack _). reflexivity.
Defined.

Lemma fallback_title_bound_witness :
  Str.chars_count (replicate 60 98%N ++ Str.lit "...") <= 63
  ∧ ∃ s, fallback_text (json_file first_request_80 (Some 200)) json_path
           first_request_80_header = Some s
         ∧ Str.chars_take 60 (replicate 60 98%N ++ Str.lit "...")
           = Str.chars_take 60 s
         ∧ Str.chars_count (replicate 60 98%N ++ Str.lit "...")
           = if 60 <? Str.chars_count s then 63 else Str.chars_count s.
Proof.
  eapply (fallback_title_bound any_date
            (json_file first_request_80 (Some 200)) json_path ws);
    reflexivity.
Defined.

Lemma created_at_out_of_range_witness :
  ∃ m, extract_quick_metadata before_2000 (json_file titled (Some 70))
         json_path ws = Some m
       ∧ created_at m = None.
Proof.
  eapply (created_at_out_of_range before_2000 (json_file titled (Some 70))
            json_path ws); reflexivity.
Defined.

Lemma user_text_threshold_witness :
  (5 < Str.chars_count (Str.lit "How do I sort a list?") →
   user_message_title (LineOk (Some question))
   = Some (truncate_title (Str.lit "How do I sort a list?")))
  ∧ (Str.len (Str.lit "How do I sort a list?") <= 5 →
     user_message_title (LineOk (Some question)) = None)
  ∧ (Forall (fun c => (c < 128)%N) (Str.lit "How do I sort a list?") →
     (is_Some (user_message_title (LineOk (Some question)))
      ↔ 5 < Str.chars_count (Str.lit "How do I sort a list?"))).
Proof.
  apply (user_text_threshold question (Str.lit "How do I sort a list?"));
    reflexivity.
Defined.

Lemma update_commands_partial_witness :
  Py.update_commands (sources "a b") (Str.lit "commands.rs")
    (Str.lit "a") (Str.lit "x") (Str.lit "a") (Str.lit "y")
  = (Py.SearchNotFound,
     <[Str.lit "commands.rs" :=
         {| Py.content :=
              Some (Py.replace (Str.lit "a b") (Str.lit "a") (Str.lit "x"));
            Py.writable := true |}]> (sources "a b")).
Proof.
  apply (update_commands_partial (sources "a b") (Str.lit "commands.rs")
           {| Py.content := Some (Str.lit "a b"); Py.writable := true |}
           (Str.lit "a b") (Str.lit "a") (Str.lit "x") (Str.lit "a")
           (Str.lit "y")); vm_compute; reflexivity.
Defined.

(** What [str.replace] does with overlapping occurrences and with an empty
    pattern. *)
Example replace_overlapping :
  Py.replace (Str.lit "aaa") (Str.lit "aa") (Str.lit "b") = Str.lit "ba".
Proof. reflexivity. Qed.

Example replace_empty_pattern :
  Py.replace (Str.lit "abc") [] (Str.lit "-") = Str.lit "-a-b-c-".
Proof. reflexivity. Qed.

Example replace_every_occurrence :
  Py.replace (Str.lit "x.y.z") (Str.lit ".") (Str.lit "::")
  = Str.lit "x::y::z".
Proof. reflexivity. Qed.

End FurtherWitnesses.
